(** * terraform-provider-k8s: the manifest adapter of [main.go]

    A shallow embedding of the provider's CRUD adapter.  Go strings are
    byte sequences, so they are modelled by [string] (lists of 8-bit
    [ascii]).  The few functions of Go's standard library the adapter
    calls on strings ([strings.Split], [strings.Join],
    [strings.TrimSpace], [url.PathUnescape]) are modelled from their
    documented behaviour; everything that talks to the operating system
    (sub-processes, temporary files) and the JSON decoder are the fields
    of the class [Env], over which the adapter and its properties are
    stated. *)

From Stdlib Require Import List String Ascii Bool Arith NArith Lia.
Import ListNotations.
Open Scope string_scope.
Open Scope list_scope.

Set Implicit Arguments.

(** ** Bytes *)

Definition byte_in (lo hi : N) (c : ascii) : bool :=
  (N.leb lo (N_of_ascii c) && N.leb (N_of_ascii c) hi)%bool.

(** ** Package [strings] *)

Module strings.

(** [strings.Join(elems, sep)] *)
Fixpoint Join (elems : list string) (sep : string) : string :=
  match elems with
  | [] => ""
  | [e] => e
  | e :: rest => (e ++ sep ++ Join rest sep)%string
  end.

(** [consHead c l] puts the byte [c] in front of the first string of [l]. *)
Definition consHead (c : ascii) (l : list string) : list string :=
  match l with
  | [] => [String c ""]
  | h :: t => String c h :: t
  end.

(** The substrings of [s] between the occurrences of a non-empty [sep],
    scanned from the left; [skip] counts the bytes of an occurrence of
    [sep] that was recognised and is still to be passed over. *)
Fixpoint splitFrom (sep : string) (skip : nat) (s : string) : list string :=
  match s with
  | "" => [""]
  | String c s' =>
      match skip with
      | S k => splitFrom sep k s'
      | O =>
          if prefix sep s
          then "" :: splitFrom sep (String.length sep - 1) s'
          else consHead c (splitFrom sep 0 s')
      end
  end.

(** *** White space, as [unicode.IsSpace] has it *)

Definition IsSpace (r : N) : bool :=
  if N.leb r 255
  then existsb (N.eqb r) [9; 10; 11; 12; 13; 32; 133; 160]%N
  else (N.eqb r 5760
        || (N.leb 8192 r && N.leb r 8202)
        || N.eqb r 8232 || N.eqb r 8233 || N.eqb r 8239
        || N.eqb r 8287 || N.eqb r 12288)%bool.

Definition cont (c : ascii) : bool := byte_in 128 191 c.

(** A well-formed two-byte UTF-8 sequence and the rune it encodes. *)
Definition valid2 (b0 b1 : ascii) : bool := (byte_in 194 223 b0 && cont b1)%bool.
Definition rune2 (b0 b1 : ascii) : N :=
  N.lor (N.shiftl (N.land (N_of_ascii b0) 31) 6) (N.land (N_of_ascii b1) 63).

(** A well-formed three-byte UTF-8 sequence (no overlong forms, no
    surrogates) and the rune it encodes. *)
Definition valid3 (b0 b1 b2 : ascii) : bool :=
  ((  (byte_in 224 224 b0 && byte_in 160 191 b1)
   || (byte_in 225 236 b0 && cont b1)
   || (byte_in 237 237 b0 && byte_in 128 159 b1)
   || (byte_in 238 239 b0 && cont b1)) && cont b2)%bool.
Definition rune3 (b0 b1 b2 : ascii) : N :=
  N.lor (N.shiftl (N.land (N_of_ascii b0) 15) 12)
        (N.lor (N.shiftl (N.land (N_of_ascii b1) 63) 6)
               (N.land (N_of_ascii b2) 63)).

(** A well-formed four-byte UTF-8 sequence (runes up to U+10FFFF). *)
Definition valid4 (b0 b1 b2 b3 : ascii) : bool :=
  ((  (byte_in 240 240 b0 && byte_in 144 191 b1)
   || (byte_in 241 243 b0 && cont b1)
   || (byte_in 244 244 b0 && byte_in 128 143 b1)) && cont b2 && cont b3)%bool.

(** The width in bytes of the rune at the head of a non-empty [s], as
    [utf8.DecodeRuneInString] reports it: an ill-formed or truncated
    sequence counts as one byte. *)
Definition runeLen (s : string) : nat :=
  match s with
  | String b0 (String b1 (String b2 (String b3 _))) =>
      if byte_in 0 127 b0 then 1
      else if valid2 b0 b1 then 2
      else if valid3 b0 b1 b2 then 3
      else if valid4 b0 b1 b2 b3 then 4
      else 1
  | String b0 (String b1 (String b2 "")) =>
      if byte_in 0 127 b0 then 1
      else if valid2 b0 b1 then 2
      else if valid3 b0 b1 b2 then 3
      else 1
  | String b0 (String b1 "") =>
      if byte_in 0 127 b0 then 1 else if valid2 b0 b1 then 2 else 1
  | _ => 1
  end.

(** [explode(s, -1)]: [s] cut into its UTF-8 sequences; [skip] counts the
    bytes of the current sequence that are still to come. *)
Fixpoint explodeFrom (skip : nat) (s : string) : list string :=
  match s with
  | "" => []
  | String c s' =>
      match skip with
      | S (S k) => consHead c (explodeFrom (S k) s')
      | S O => String c "" :: explodeFrom 0 s'
      | O =>
          match runeLen s with
          | S (S k) => consHead c (explodeFrom (S k) s')
          | _ => String c "" :: explodeFrom 0 s'
          end
      end
  end.

(** [strings.Split(s, sep)]: the substrings between the separators, or
    the UTF-8 sequences of [s] when [sep] is empty. *)
Definition Split (s sep : string) : list string :=
  match sep with
  | "" => explodeFrom 0 s
  | _ => splitFrom sep 0 s
  end.

(** [s] without its leading white-space runes.  Runes of four bytes and
    ill-formed bytes are never white space. *)
Fixpoint TrimLeftSpace (s : string) : string :=
  match s with
  | "" => ""
  | String b0 s1 =>
      if (byte_in 0 127 b0 && IsSpace (N_of_ascii b0))%bool then TrimLeftSpace s1
      else
        match s1 with
        | String b1 s2 =>
            if (valid2 b0 b1 && IsSpace (rune2 b0 b1))%bool then TrimLeftSpace s2
            else
              match s2 with
              | String b2 s3 =>
                  if (valid3 b0 b1 b2 && IsSpace (rune3 b0 b1 b2))%bool
                  then TrimLeftSpace s3
                  else s
              | "" => s
              end
        | "" => s
        end
  end.

(** [s] without its trailing white-space runes: the shortest prefix of
    [s] whose remainder is white space only. *)
Fixpoint TrimRightSpace (s : string) : string :=
  match s with
  | "" => ""
  | String c s' =>
      if TrimLeftSpace s =? "" then "" else String c (TrimRightSpace s')
  end.

(** [strings.TrimSpace(s)] *)
Definition TrimSpace (s : string) : string := TrimRightSpace (TrimLeftSpace s).

End strings.

(** ** Package [net/url] *)

Module url.

Definition ishex (c : ascii) : bool :=
  (byte_in 48 57 c || byte_in 97 102 c || byte_in 65 70 c)%bool.

Definition unhex (c : ascii) : N :=
  if byte_in 48 57 c then N_of_ascii c - 48
  else if byte_in 97 102 c then N_of_ascii c - 97 + 10
  else if byte_in 65 70 c then N_of_ascii c - 65 + 10
  else 0.

(** At most the first three bytes of [s]: the text of an [EscapeError]. *)
Definition escapeText (s : string) : string := substring 0 3 s.

(** First loop of [unescape]: every [%] is followed by two hex digits.
    The result is the text of the first ill-formed escape, if any. *)
Fixpoint checkEscapes (s : string) : option string :=
  match s with
  | "" => None
  | String c rest =>
      if Ascii.eqb c "%" then
        match rest with
        | String h1 (String h2 rest') =>
            if (ishex h1 && ishex h2)%bool then checkEscapes rest'
            else Some (escapeText s)
        | _ => Some (escapeText s)
        end
      else checkEscapes rest
  end.

(** Second loop of [unescape], run on a string that passed the first:
    [%XY] becomes the byte [XY]; in a path segment [+] stays [+]. *)
Fixpoint decodeEscapes (s : string) : string :=
  match s with
  | "" => ""
  | String c rest =>
      if Ascii.eqb c "%" then
        match rest with
        | String h1 (String h2 rest') =>
            String (ascii_of_N (N.lor (N.shiftl (unhex h1) 4) (unhex h2)))
                   (decodeEscapes rest')
        | _ => String c (decodeEscapes rest)
        end
      else String c (decodeEscapes rest)
  end.

(** [url.PathUnescape(s)]: the decoded string and no error, or the empty
    string and an [EscapeError] carrying the offending text. *)
Definition PathUnescape (s : string) : string * option string :=
  match checkEscapes s with
  | Some bad => ("", Some bad)
  | None => (decodeEscapes s, None)
  end.

End url.

(** ** The identifier codec *)

(** [const resourceIDSelflinkDelim = " "] *)
Definition resourceIDSelflinkDelim : string := " ".

(** The loop of [resourceFromSelflink] that looks for the namespace:
    [rest] is what is left of [parts] from index [i] on. *)
Fixpoint namespaceLoop (parts : list string) (i : nat) (rest : list string) : string :=
  match rest with
  | [] => ""
  | part :: rest' =>
      if ((part =? "namespaces") && (i + 1 <? List.length parts)%nat)%bool
      then nth (i + 1) parts ""
      else namespaceLoop parts (i + 1) rest'
  end.

(** [parts[len(parts)-2] + "/" + parts[len(parts)-1]] *)
Definition kindAndName (parts : list string) : string :=
  (nth (List.length parts - 2) parts "" ++ "/"
     ++ nth (List.length parts - 1) parts "")%string.

(** [func resourceFromSelflink(s string) (resource, namespace string, ok bool)] *)
Definition resourceFromSelflink (s : string) : string * string * bool :=
  let parts := strings.Split s "/" in
  if (List.length parts <? 2)%nat then ("", "", false)
  else
    let resource := kindAndName parts in
    let namespace := namespaceLoop parts 0 parts in
    let '(resource, err) := url.PathUnescape resource in
    match err with
    | Some _ => (resource, namespace, false)
    | None => (resource, namespace, true)
    end.

(** ** Errors *)

(** An [error] is either a message built by [fmt.Errorf] or the program's
    own [type errorList []error]. *)
#[warnings="-register-all"]
Inductive error : Type :=
| Errorf (msg : string)
| errorList (errs : list error).

(** [func (e errorList) Error() string], and the message of a plain error:
    [fmt.Sprintf("%s", []error(e))] renders the members between brackets,
    separated by spaces. *)
Fixpoint Error (e : error) : string :=
  match e with
  | Errorf msg => msg
  | errorList errs => ("[" ++ strings.Join (map Error errs) " " ++ "]")%string
  end.

(** ** Data *)

(** [type config struct] *)
Record config : Type := {
  kubeconfig : string;
  kubeconfigContent : string;
  kubeconfigContext : string
}.

(** What the adapter uses of [*schema.ResourceData]: the [content] field of
    the resource and its identity. *)
Record ResourceData : Type := {
  content : string;
  Id : string
}.

Definition SetId (d : ResourceData) (v : string) : ResourceData :=
  {| content := content d; Id := v |}.

(** What the adapter uses of [*exec.Cmd]. *)
Record Cmd : Type := {
  Path : string;
  Args : list string;
  Stdin : option string
}.

(** What a finished sub-process leaves behind: the error of [cmd.Run], if
    any, and what it wrote on its two output streams. *)
Record Finished : Type := {
  runErr : option string;
  Stdout : string;
  Stderr : string
}.

(** [data.Items[i]] of [resourceManifestCreate]. *)
Record Metadata : Type := { Selflink : string }.
Record Item : Type := { metadata : Metadata }.

(** The calls the adapter makes to the operating system, in the order it
    makes them; a sub-process is logged with what it left behind. *)
Inductive Event : Type :=
| EvRun (cmd : Cmd) (fin : Finished)
| EvTempFile
| EvWriteString (name data : string)
| EvClose (name : string)
| EvRemove (name : string).

Definition isRun (e : Event) : bool :=
  match e with EvRun _ _ => true | _ => false end.

(** [strings.TrimSpace(stdout.String()) == ""] *)
Definition blank (stdout : string) : bool := strings.TrimSpace stdout =? "".

(** A sub-process that succeeded and printed nothing but white space. *)
Definition isBlankRun (e : Event) : bool :=
  match e with
  | EvRun _ fin =>
      match runErr fin with
      | None => blank (Stdout fin)
      | Some _ => false
      end
  | _ => false
  end.

Definition nonEmpty (s : string) : bool := negb (s =? "").

(** ** The adapter *)

(** The world outside the process and what the adapter asks of it. *)
Class Env : Type := {
  World : Type;
  (** [exec.LookPath]: where a command name resolves to. *)
  exec_LookPath : string -> string;
  (** [cmd.Run()] *)
  cmd_Run : Cmd -> World -> Finished * World;
  (** [ioutil.TempFile("", "kubeconfig_")]: the name of the new file, or
      the error. *)
  ioutil_TempFile : World -> (string + string) * World;
  (** [io.WriteString(tmpfile, data)], [tmpfile.Close()], [os.Remove(name)] *)
  io_WriteString : string -> string -> World -> option string * World;
  file_Close : string -> World -> option string * World;
  os_Remove : string -> World -> World;
  (** [json.Unmarshal(stdout, &data)]: the error, or [data.Items]. *)
  json_Unmarshal : string -> string + list Item
}.

Section Adapter.

Context {env : Env}.

(** The state the adapter threads through its calls: the world and the
    log of the calls made so far. *)
Record St : Type := { world : World; trace : list Event }.

Definition TempFile (st : St) : (string + string) * St :=
  let '(r, w) := ioutil_TempFile (world st) in
  (r, {| world := w; trace := trace st ++ [EvTempFile] |}).

Definition WriteString (name data : string) (st : St) : option string * St :=
  let '(r, w) := io_WriteString name data (world st) in
  (r, {| world := w; trace := trace st ++ [EvWriteString name data] |}).

Definition Close (name : string) (st : St) : option string * St :=
  let '(r, w) := file_Close name (world st) in
  (r, {| world := w; trace := trace st ++ [EvClose name] |}).

Definition Remove (name : string) (st : St) : St :=
  {| world := os_Remove name (world st); trace := trace st ++ [EvRemove name] |}.

(** [exec.Command(name, arg...)] *)
Definition exec_Command (name : string) (arg : list string) : Cmd :=
  {| Path := exec_LookPath name; Args := name :: arg; Stdin := None |}.

Definition withStdin (cmd : Cmd) (input : string) : Cmd :=
  {| Path := Path cmd; Args := Args cmd; Stdin := Some input |}.

(** [func run(cmd *exec.Cmd) error], together with what the process wrote
    on its standard output (the caller's [cmd.Stdout] buffer). *)
Definition run (cmd : Cmd) (st : St) : (option error * string) * St :=
  let '(fin, w) := cmd_Run cmd (world st) in
  let st := {| world := w; trace := trace st ++ [EvRun cmd fin] |} in
  match runErr fin with
  | Some err =>
      let cmdStr := (Path cmd ++ " " ++ strings.Join (Args cmd) " ")%string in
      if (String.length (Stderr fin) =? 0)%nat
      then ((Some (Errorf (cmdStr ++ ": " ++ err)%string), Stdout fin), st)
      else ((Some (Errorf (cmdStr ++ " " ++ err ++ ": " ++ Stderr fin)%string),
             Stdout fin), st)
  | None => ((None, Stdout fin), st)
  end.

Definition ConfigConflict : error :=
  Errorf ("both kubeconfig and kubeconfig_content are defined, "
          ++ "please use only one of the paramters")%string.

(** [func kubeconfigPath(m interface{}) (string, func(), error)].  On the
    error paths the deferred [cleanupFunc()] has run when the function
    returns. *)
Definition kubeconfigPath (m : config) (st : St)
  : (string * (St -> St) * option error) * St :=
  let kubeconfig := kubeconfig m in
  let kubeconfigContent := kubeconfigContent m in
  let cleanupFunc : St -> St := fun st => st in
  if (nonEmpty kubeconfig && nonEmpty kubeconfigContent)%bool then
    ((kubeconfig, cleanupFunc, Some ConfigConflict), st)
  else if nonEmpty kubeconfigContent then
    let '(tmpfile, st) := TempFile st in
    match tmpfile with
    | inr err =>
        (("", cleanupFunc,
          Some (Errorf ("creating a kubeconfig file: " ++ err)%string)),
         cleanupFunc st)
    | inl name =>
        let cleanupFunc : St -> St := Remove name in
        let '(werr, st) := WriteString name kubeconfigContent st in
        match werr with
        | Some err =>
            (("", cleanupFunc,
              Some (Errorf ("writing kubeconfig to file: " ++ err)%string)),
             cleanupFunc st)
        | None =>
            let '(cerr, st) := Close name st in
            match cerr with
            | Some err =>
                (("", cleanupFunc,
                  Some (Errorf
                          ("completion of write to kubeconfig file: " ++ err)%string)),
                 cleanupFunc st)
            | None =>
                let kubeconfig := name in
                if nonEmpty kubeconfig
                then ((kubeconfig, cleanupFunc, None), st)
                else (("", cleanupFunc, None), st)
            end
        end
    end
  else if nonEmpty kubeconfig then ((kubeconfig, cleanupFunc, None), st)
  else (("", cleanupFunc, None), st).

(** [func kubectl(m interface{}, kubeconfig string, args ...string) *exec.Cmd] *)
Definition kubectl (m : config) (kubeconfig : string) (args : list string) : Cmd :=
  let args :=
    if nonEmpty kubeconfig then ["--kubeconfig"; kubeconfig] ++ args else args in
  let context := kubeconfigContext m in
  let args :=
    if nonEmpty context then ["--context"; context] ++ args else args in
  exec_Command "kubectl" args.

(** The loop of [resourceManifestCreate] over [data.Items]: the self-links
    gathered so far, or the item without one. *)
Fixpoint selflinksLoop (stdout : string) (items : list Item) (selflinks : list string)
  : error + list string :=
  match items with
  | [] => inr selflinks
  | item :: rest =>
      let selflink := Selflink (metadata item) in
      if selflink =? "" then
        inl (Errorf ("could not parse self-link from response " ++ stdout)%string)
      else selflinksLoop stdout rest (selflinks ++ [selflink])
  end.

(** [func resourceManifestCreate(d *schema.ResourceData, m interface{}) error] *)
Definition resourceManifestCreate (d : ResourceData) (m : config) (st : St)
  : option error * ResourceData * St :=
  let '((kubeconfig, cleanup, err), st) := kubeconfigPath m st in
  match err with
  | Some err =>
      (Some (Errorf ("determining kubeconfig: " ++ Error err)%string), d, st)
  | None =>
      let cmd := withStdin (kubectl m kubeconfig ["apply"; "-f"; "-"]) (content d) in
      let '((err, _), st) := run cmd st in
      match err with
      | Some err => (Some err, d, cleanup st)
      | None =>
          let cmd :=
            withStdin (kubectl m kubeconfig ["get"; "-f"; "-"; "-o"; "json"])
                      (content d) in
          let '((err, stdout), st) := run cmd st in
          match err with
          | Some err => (Some err, d, cleanup st)
          | None =>
              match json_Unmarshal stdout with
              | inl err =>
                  (Some (Errorf ("decoding response: " ++ err)%string), d, cleanup st)
              | inr items =>
                  if (List.length items =? 0)%nat then
                    (Some (Errorf "no resources created"), d, cleanup st)
                  else
                    match selflinksLoop stdout items [] with
                    | inl err => (Some err, d, cleanup st)
                    | inr selflinks =>
                        (None,
                         SetId d (strings.Join selflinks resourceIDSelflinkDelim),
                         cleanup st)
                    end
              end
          end
      end
  end.

(** [func resourceManifestUpdate(d *schema.ResourceData, m interface{}) error] *)
Definition resourceManifestUpdate (d : ResourceData) (m : config) (st : St)
  : option error * ResourceData * St :=
  let '((kubeconfig, cleanup, err), st) := kubeconfigPath m st in
  match err with
  | Some err =>
      (Some (Errorf ("determining kubeconfig: " ++ Error err)%string), d, st)
  | None =>
      let cmd := withStdin (kubectl m kubeconfig ["apply"; "-f"; "-"]) (content d) in
      let '((err, _), st) := run cmd st in
      (err, d, cleanup st)
  end.

(** The arguments of the two per-object commands. *)
Definition deleteArgs (resource namespace : string) : list string :=
  let args := ["delete"; resource] in
  if nonEmpty namespace then args ++ ["-n"; namespace] else args.

Definition getArgs (resource namespace : string) : list string :=
  let args := ["get"; "--ignore-not-found"; resource] in
  if nonEmpty namespace then args ++ ["-n"; namespace] else args.

(** [func deleteResource(m interface{}, selflink string) error] *)
Definition deleteResource (m : config) (selflink : string) (st : St)
  : option error * St :=
  let '(resource, namespace, ok) := resourceFromSelflink selflink in
  if negb ok then
    (Some (Errorf ("invalid resource id: " ++ selflink)%string), st)
  else
    let args := deleteArgs resource namespace in
    let '((kubeconfig, cleanup, err), st) := kubeconfigPath m st in
    match err with
    | Some err =>
        (Some (Errorf ("determining kubeconfig: " ++ Error err)%string), st)
    | None =>
        let cmd := kubectl m kubeconfig args in
        let '((err, _), st) := run cmd st in
        (err, cleanup st)
    end.

Definition appendErr (errs : list error) (err : option error) : list error :=
  match err with
  | Some e => errs ++ [e]
  | None => errs
  end.

(** [if len(errs) != 0 { return errorList(errs) }; return nil] *)
Definition errsResult (errs : list error) : option error :=
  if negb (List.length errs =? 0)%nat then Some (errorList errs) else None.

(** The loop of [resourceManifestDelete]: [n] is [i + 1], so the loop
    runs while [i >= 0] and reads [resources[i]], an index that is always
    in range. *)
Fixpoint deleteLoop (m : config) (resources : list string) (n : nat)
         (errs : list error) (st : St) : list error * St :=
  match n with
  | O => (errs, st)
  | S i =>
      let '(err, st) := deleteResource m (nth i resources "") st in
      deleteLoop m resources i (appendErr errs err) st
  end.

(** [func resourceManifestDelete(d *schema.ResourceData, m interface{}) error] *)
Definition resourceManifestDelete (d : ResourceData) (m : config) (st : St)
  : option error * ResourceData * St :=
  let resources := strings.Split (Id d) resourceIDSelflinkDelim in
  let '(errs, st) := deleteLoop m resources (List.length resources) [] st in
  (errsResult errs, d, st).

(** [func readResource(d *schema.ResourceData, m interface{}, selflink string) error] *)
Definition readResource (d : ResourceData) (m : config) (selflink : string) (st : St)
  : option error * ResourceData * St :=
  let '(resource, namespace, ok) := resourceFromSelflink selflink in
  if negb ok then
    (Some (Errorf ("invalid resource id: " ++ selflink)%string), d, st)
  else
    let args := getArgs resource namespace in
    let '((kubeconfig, cleanup, err), st) := kubeconfigPath m st in
    match err with
    | Some err =>
        (Some (Errorf ("determining kubeconfig: " ++ Error err)%string), d, st)
    | None =>
        let cmd := kubectl m kubeconfig args in
        let '((err, stdout), st) := run cmd st in
        match err with
        | Some err => (Some err, d, cleanup st)
        | None =>
            if blank stdout
            then (None, SetId d "", cleanup st)
            else (None, d, cleanup st)
        end
    end.

(** The loop of [resourceManifestRead] over the self-links of the stored
    identity (split once, before the first iteration). *)
Fixpoint readLoop (m : config) (selflinks : list string)
         (errs : list error) (d : ResourceData) (st : St)
  : list error * ResourceData * St :=
  match selflinks with
  | [] => (errs, d, st)
  | selflink :: rest =>
      let '(err, d, st) := readResource d m selflink st in
      readLoop m rest (appendErr errs err) d st
  end.

(** [func resourceManifestRead(d *schema.ResourceData, m interface{}) error] *)
Definition resourceManifestRead (d : ResourceData) (m : config) (st : St)
  : option error * ResourceData * St :=
  let '(errs, d, st) :=
    readLoop m (strings.Split (Id d) resourceIDSelflinkDelim) [] d st in
  (errsResult errs, d, st).

End Adapter.

(** ** Vocabulary of the statements *)

(** [containsByte c s]: the byte [c] occurs in [s]. *)
Fixpoint containsByte (c : ascii) (s : string) : bool :=
  match s with
  | "" => false
  | String b s' => (Ascii.eqb b c || containsByte c s')%bool
  end.

(** The errors among the results of a series of attempts, in order. *)
Fixpoint failures (results : list (option error)) : list error :=
  match results with
  | [] => []
  | Some e :: rest => e :: failures rest
  | None :: rest => failures rest
  end.

(** A stretch of the log in which no sub-process was run. *)
Definition noRuns (evs : list Event) : Prop := existsb isRun evs = false.

Section Attempts.

Context {env : Env}.

(** A state change that runs no sub-process. *)
Definition quiet (f : St -> St) : Prop :=
  forall st, exists evs, trace (f st) = trace st ++ evs /\ noRuns evs.

(** Every element of [ls] is attempted once, in order, each attempt
    starting in the state the one before it left, whatever its result. *)
Fixpoint attemptAll (f : string -> St -> option error * St) (ls : list string) (st : St)
  : list (option error) * St :=
  match ls with
  | [] => ([], st)
  | x :: rest =>
      let '(r, st) := f x st in
      let '(rs, st) := attemptAll f rest st in
      (r :: rs, st)
  end.

(** The error a configuration with both credential sources gives to
    every caller of [kubeconfigPath]. *)
Definition conflictError : error :=
  Errorf ("determining kubeconfig: " ++ Error ConfigConflict)%string.

(** What one locator contributes to the aggregate of Read and Delete
    under such a configuration. *)
Definition conflictOrInvalid (selflink : string) : error :=
  if snd (resourceFromSelflink selflink) then conflictError
  else Errorf ("invalid resource id: " ++ selflink)%string.

End Attempts.

(** ** A small cluster to run the adapter against

    The world counts the processes run so far.  Deleting [pods/b] fails,
    looking [pods/b] up prints nothing, a structured get prints the manifest
    back, every other command prints a line of text. *)

Module Demo.

Definition mentions (arg : string) (cmd : Cmd) : bool :=
  existsb (String.eqb arg) (Args cmd).

Definition quote : string := String (ascii_of_nat 34) "".

Definition podA : string := "/api/v1/namespaces/default/pods/a".
Definition podB : string := "/api/v1/namespaces/default/pods/b".

Definition itemOf (selflink : string) : string :=
  ("{" ++ quote ++ "metadata" ++ quote ++ ":{" ++ quote ++ "selfLink" ++ quote
       ++ ":" ++ quote ++ selflink ++ quote ++ "}}")%string.

Definition twoPods : string :=
  ("{" ++ quote ++ "items" ++ quote ++ ":[" ++ itemOf podA ++ "," ++ itemOf podB
       ++ "]}")%string.

Definition runProcess (cmd : Cmd) (w : nat) : Finished * nat :=
  if (mentions "delete" cmd && mentions "pods/b" cmd)%bool then
    ({| runErr := Some "exit status 1"; Stdout := "";
        Stderr := "Error from server (Forbidden)" |}, S w)
  else if (mentions "--ignore-not-found" cmd && mentions "pods/b" cmd)%bool then
    ({| runErr := None; Stdout := ""; Stderr := "" |}, S w)
  else if mentions "json" cmd then
    ({| runErr := None;
        Stdout := match Stdin cmd with Some doc => doc | None => "" end;
        Stderr := "" |}, S w)
  else
    ({| runErr := None; Stdout := "pod/a configured"; Stderr := "" |}, S w).

Definition unmarshal (doc : string) : string + list Item :=
  if doc =? "{}" then inr []
  else if doc =? twoPods then
    inr [ {| metadata := {| Selflink := podA |} |};
          {| metadata := {| Selflink := podB |} |} ]
  else inl "invalid character".

#[export] Instance cluster : Env := {|
  World := nat;
  exec_LookPath := fun name => ("/usr/local/bin/" ++ name)%string;
  cmd_Run := runProcess;
  ioutil_TempFile := fun w => (inl "/tmp/kubeconfig_1", w);
  io_WriteString := fun _ _ w => (None, w);
  file_Close := fun _ w => (None, w);
  os_Remove := fun _ w => w;
  json_Unmarshal := unmarshal
|}.

Definition start : St := {| world := 0; trace := [] |}.

(** The argument lists of the sub-processes run so far, oldest first. *)
Definition commands (st : St) : list (list string) :=
  flat_map (fun e => match e with EvRun cmd _ => [Args cmd] | _ => [] end) (trace st).

(** A stored identity of two pods. *)
Definition twoPodsId : string := (podA ++ " " ++ podB)%string.

(** A provider configured with a path only, with both sources, and with a
    path and a context. *)
Definition byPath : config :=
  {| kubeconfig := "/home/op/.kube/config"; kubeconfigContent := "";
     kubeconfigContext := "" |}.
Definition both : config :=
  {| kubeconfig := "/home/op/.kube/config"; kubeconfigContent := "apiVersion: v1";
     kubeconfigContext := "" |}.
Definition withContext : config :=
  {| kubeconfig := "/home/op/.kube/config"; kubeconfigContent := "";
     kubeconfigContext := "staging" |}.

End Demo.

(** ** Further vocabulary *)

(** Some byte of [s] satisfies [p]; every byte of [s] satisfies [p]. *)
Fixpoint someByte (p : ascii -> bool) (s : string) : bool :=
  match s with
  | "" => false
  | String c s' => (p c || someByte p s')%bool
  end.

Fixpoint everyByte (p : ascii -> bool) (s : string) : bool :=
  match s with
  | "" => true
  | String c s' => (p c && everyByte p s')%bool
  end.

(** The six ASCII white-space bytes: tab, line feed, vertical tab, form
    feed, carriage return and space. *)
Definition asciiSpace (c : ascii) : bool :=
  (byte_in 9 13 c || byte_in 32 32 c)%bool.


(** The printable ASCII bytes other than space. *)
Definition visible (c : ascii) : bool := byte_in 33 126 c.

(** The self-link of an item of the structured get. *)
Definition selflinkOf (item : Item) : string := Selflink (metadata item).

(** The error Read and Delete give for a locator that does not decode. *)
Definition invalidId (selflink : string) : error :=
  Errorf ("invalid resource id: " ++ selflink)%string.

(** The sub-processes of a stretch of the log. *)
Definition runsOf (evs : list Event) : list Event := filter isRun evs.

Definition isRemoveOf (name : string) (e : Event) : bool :=
  match e with
  | EvRemove n => n =? name
  | _ => false
  end.

(** Every file written in this stretch of the log is removed later in it. *)
Fixpoint released (evs : list Event) : bool :=
  match evs with
  | [] => true
  | EvWriteString name _ :: rest => (existsb (isRemoveOf name) rest && released rest)%bool
  | _ :: rest => released rest
  end.

(** A provider configured with inline credentials only. *)
Definition demoInline : config :=
  {| kubeconfig := ""; kubeconfigContent := "apiVersion: v1";
     kubeconfigContext := "" |}.

(** A cluster like [Demo.cluster] whose structured get decodes to two
    items, the second without a self-link. *)
Definition unmarshalNoLink (doc : string) : string + list Item :=
  inr [ {| metadata := {| Selflink := Demo.podA |} |};
        {| metadata := {| Selflink := "" |} |} ].

Definition clusterNoLink : Env := {|
  World := nat;
  exec_LookPath := fun name => ("/usr/local/bin/" ++ name)%string;
  cmd_Run := Demo.runProcess;
  ioutil_TempFile := fun w => (inl "/tmp/kubeconfig_1", w);
  io_WriteString := fun _ _ w => (None, w);
  file_Close := fun _ w => (None, w);
  os_Remove := fun _ w => w;
  json_Unmarshal := unmarshalNoLink
|}.

(** A cluster like [Demo.cluster] on which writing a file fails. *)
Definition clusterDiskFull : Env := {|
  World := nat;
  exec_LookPath := fun name => ("/usr/local/bin/" ++ name)%string;
  cmd_Run := Demo.runProcess;
  ioutil_TempFile := fun w => (inl "/tmp/kubeconfig_1", w);
  io_WriteString := fun _ _ w => (Some "no space left on device", w);
  file_Close := fun _ w => (None, w);
  os_Remove := fun _ w => w;
  json_Unmarshal := Demo.unmarshal
|}.

Definition startDiskFull : @St clusterDiskFull :=
  @Build_St clusterDiskFull (0 : @World clusterDiskFull) [].

Definition startNoLink : @St clusterNoLink :=
  @Build_St clusterNoLink (0 : @World clusterNoLink) [].

(** ** The operations in the words of the specification

    A second description of what Read, Delete and Create do for one
    locator, written from sections 4.1, 4.5 and 6 of the specification in
    terms of the calls to the outside world only.  It shares with the
    adapter the identifier codec, the credential resolver and the
    standard library, and none of [run], [kubectl], [readResource],
    [deleteResource], [errsResult] or [SetId]. *)

Section InWords.

Context {env : Env}.

(** Section 6: the command line, the connection flags first (the context
    pair before the credentials pair, each only when it is configured),
    then the verb and its arguments. *)
Definition cliCommand (m : config) (path : string) (verb : list string)
           (input : option string) : Cmd :=
  {| Path := exec_LookPath "kubectl";
     Args := "kubectl"
             :: (if kubeconfigContext m =? "" then [] else ["--context"; kubeconfigContext m])
             ++ (if path =? "" then [] else ["--kubeconfig"; path])
             ++ verb;
     Stdin := input |}.

(** Section 6: [-n <namespace>], for a namespaced object only. *)
Definition namespaceFlag (namespace : string) : list string :=
  if namespace =? "" then [] else ["-n"; namespace].

Definition applyCommand (m : config) (path : string) (d : ResourceData) : Cmd :=
  cliCommand m path ["apply"; "-f"; "-"] (Some (content d)).

Definition getJSONCommand (m : config) (path : string) (d : ResourceData) : Cmd :=
  cliCommand m path ["get"; "-f"; "-"; "-o"; "json"] (Some (content d)).

Definition getCommand (m : config) (path resource namespace : string) : Cmd :=
  cliCommand m path (["get"; "--ignore-not-found"; resource] ++ namespaceFlag namespace)
             None.

Definition deleteCommand (m : config) (path resource namespace : string) : Cmd :=
  cliCommand m path (["delete"; resource] ++ namespaceFlag namespace) None.

(** Section 4.1: the error of a process that failed for [cause]; the
    standard error text is part of it only when there is some. *)
Definition processError (cmd : Cmd) (cause stderr : string) : error :=
  let cmdStr := (Path cmd ++ " " ++ strings.Join (Args cmd) " ")%string in
  if stderr =? "" then Errorf (cmdStr ++ ": " ++ cause)%string
  else Errorf (cmdStr ++ " " ++ cause ++ ": " ++ stderr)%string.

(** The state once [cmd] has run and left [fin] and the world [w]. *)
Definition afterRun (st : St) (cmd : Cmd) (fin : Finished) (w : World) : St :=
  {| world := w; trace := trace st ++ [EvRun cmd fin] |}.

(** Section 4.5: no error when nothing failed, otherwise the failures in
    the order they occurred. *)
Definition aggregate (results : list (option error)) : option error :=
  match failures results with
  | [] => None
  | e :: errs => Some (errorList (e :: errs))
  end.

(** Every element of [ls] is handled once, in order, each starting in the
    state the one before it left, whatever its result. *)
Fixpoint eachInOrder (A : Type) (f : string -> St -> A * St) (ls : list string) (st : St)
  : list A * St :=
  match ls with
  | [] => ([], st)
  | x :: rest =>
      let '(r, st) := f x st in
      let '(rs, st) := eachInOrder f rest st in
      (r :: rs, st)
  end.

(** Section 4.5, Delete, for one locator: an id that does not decode is an
    error and nothing is done; credentials that do not resolve are an
    error; otherwise the delete command is run, the credentials are
    released, and the failure of the process, if any, is the error. *)
Definition deleteInWords (m : config) (selflink : string) (st : St) : option error * St :=
  match resourceFromSelflink selflink with
  | (_, _, false) =>
      (Some (Errorf ("invalid resource id: " ++ selflink)%string), st)
  | (resource, namespace, true) =>
      match kubeconfigPath m st with
      | ((_, _, Some e), st1) =>
          (Some (Errorf ("determining kubeconfig: " ++ Error e)%string), st1)
      | ((path, release, None), st1) =>
          let cmd := deleteCommand m path resource namespace in
          let '(fin, w) := cmd_Run cmd (world st1) in
          (match runErr fin with
           | None => None
           | Some cause => Some (processError cmd cause (Stderr fin))
           end,
           release (afterRun st1 cmd fin w))
      end
  end.

(** Section 4.5, Read, for one locator: the error, if any, and whether the
    object is gone, which it is when the query succeeded and printed
    nothing or white space only. *)
Definition queryInWords (m : config) (selflink : string) (st : St)
  : (option error * bool) * St :=
  match resourceFromSelflink selflink with
  | (_, _, false) =>
      ((Some (Errorf ("invalid resource id: " ++ selflink)%string), false), st)
  | (resource, namespace, true) =>
      match kubeconfigPath m st with
      | ((_, _, Some e), st1) =>
          ((Some (Errorf ("determining kubeconfig: " ++ Error e)%string), false), st1)
      | ((path, release, None), st1) =>
          let cmd := getCommand m path resource namespace in
          let '(fin, w) := cmd_Run cmd (world st1) in
          (match runErr fin with
           | None => (None, strings.TrimSpace (Stdout fin) =? "")
           | Some cause => (Some (processError cmd cause (Stderr fin)), false)
           end,
           release (afterRun st1 cmd fin w))
      end
  end.

(** The resource data with the identity [id]. *)
Definition withIdentity (d : ResourceData) (id : string) : ResourceData :=
  {| content := content d; Id := id |}.

(** The sub-processes of a run over [locators]: none or one per locator,
    in order, and one only for a locator that decodes, which it deletes. *)
Inductive oneDeleteEach (m : config) : list string -> list Event -> Prop :=
| oneDeleteEach_nil : oneDeleteEach m [] []
| oneDeleteEach_none (selflink : string) (rest : list string) (runs : list Event) :
    oneDeleteEach m rest runs -> oneDeleteEach m (selflink :: rest) runs
| oneDeleteEach_run (selflink : string) (rest : list string) (runs : list Event)
                    (resource namespace path : string) (fin : Finished) :
    resourceFromSelflink selflink = (resource, namespace, true) ->
    oneDeleteEach m rest runs ->
    oneDeleteEach m (selflink :: rest)
                  (EvRun (deleteCommand m path resource namespace) fin :: runs).

End InWords.

(** A cluster like [Demo.cluster] on which every command that mentions
    [verb] fails. *)
Definition runFailing (verb : string) (cmd : Cmd) (w : nat) : Finished * nat :=
  if Demo.mentions verb cmd then
    ({| runErr := Some "exit status 1"; Stdout := "";
        Stderr := "Unable to connect to the server" |}, S w)
  else Demo.runProcess cmd w.

Definition clusterFailing (verb : string) : Env := {|
  World := nat;
  exec_LookPath := fun name => ("/usr/local/bin/" ++ name)%string;
  cmd_Run := runFailing verb;
  ioutil_TempFile := fun w => (inl "/tmp/kubeconfig_1", w);
  io_WriteString := fun _ _ w => (None, w);
  file_Close := fun _ w => (None, w);
  os_Remove := fun _ w => w;
  json_Unmarshal := Demo.unmarshal
|}.

Definition startFailing (verb : string) : @St (clusterFailing verb) :=
  @Build_St (clusterFailing verb) (0 : @World (clusterFailing verb)) [].

(** * Properties *)

(** ** The identifier codec *)

(** C8.  Decoding the self-link [apps/v1/namespaces/foo/deployments/bar]
    gives the resource [deployments/bar], the namespace [foo] and
    [ok = true]. *)
Theorem resourceFromSelflink_deployment :
  resourceFromSelflink "apps/v1/namespaces/foo/deployments/bar"
  = ("deployments/bar", "foo", true).
Proof. reflexivity. Qed.

(** Splitting on the one-byte delimiter, one byte at a time. *)
Lemma splitFrom_delim_step (c : ascii) (s : string) :
  strings.splitFrom resourceIDSelflinkDelim 0 (String c s)
  = if Ascii.eqb c " "
    then "" :: strings.splitFrom resourceIDSelflinkDelim 0 s
    else strings.consHead c (strings.splitFrom resourceIDSelflinkDelim 0 s).
Proof.
  assert (Hp : prefix " " (String c s) = Ascii.eqb c " ").
  { cbn [prefix]. destruct (ascii_dec " " c) as [<- | Hne].
    - rewrite Ascii.eqb_refl. now destruct s.
    - destruct (Ascii.eqb_spec c " ") as [-> | _]; [now elim Hne | reflexivity]. }
  unfold resourceIDSelflinkDelim. cbn [strings.splitFrom]. rewrite Hp.
  reflexivity.
Qed.

Lemma split_no_delim (s : string) :
  containsByte " " s = false ->
  strings.splitFrom resourceIDSelflinkDelim 0 s = [s].
Proof.
  induction s as [| c s IH]; intros H.
  - reflexivity.
  - rewrite splitFrom_delim_step. simpl in H.
    apply orb_false_elim in H as [Hc Hs].
    rewrite Hc, (IH Hs). reflexivity.
Qed.

Lemma split_app_delim (s t : string) :
  containsByte " " s = false ->
  strings.splitFrom resourceIDSelflinkDelim 0 (s ++ resourceIDSelflinkDelim ++ t)%string
  = s :: strings.splitFrom resourceIDSelflinkDelim 0 t.
Proof.
  induction s as [| c s IH]; intros H.
  - change ("" ++ resourceIDSelflinkDelim ++ t)%string with (String " " t).
    now rewrite splitFrom_delim_step.
  - change (String c s ++ resourceIDSelflinkDelim ++ t)%string
      with (String c (s ++ resourceIDSelflinkDelim ++ t)%string).
    rewrite splitFrom_delim_step. simpl in H.
    apply orb_false_elim in H as [Hc Hs].
    rewrite Hc, (IH Hs). reflexivity.
Qed.

Lemma split_join_delim (e : string) (rest : list string) :
  Forall (fun s => containsByte " " s = false) (e :: rest) ->
  strings.Split (strings.Join (e :: rest) resourceIDSelflinkDelim) resourceIDSelflinkDelim
  = e :: rest.
Proof.
  revert e. induction rest as [| e' rest IH]; intros e H.
  - inversion H; subst. now apply split_no_delim.
  - inversion H as [| ? ? He Hrest]; subst.
    change (strings.Join (e :: e' :: rest) resourceIDSelflinkDelim)
      with (e ++ resourceIDSelflinkDelim
              ++ strings.Join (e' :: rest) resourceIDSelflinkDelim)%string.
    change (strings.Split ?x resourceIDSelflinkDelim)
      with (strings.splitFrom resourceIDSelflinkDelim 0 x).
    rewrite split_app_delim by exact He. f_equal. now apply IH.
Qed.

(** C1, as amended.  For a non-empty sequence [S] of self-links none of
    which contains the delimiter (a space), splitting the joined identity
    on the delimiter gives back exactly [S], so decoding the segments of
    the identity gives what decoding each element of [S] gives. *)
Theorem split_join_roundtrip (S : list string) :
  S <> [] ->
  Forall (fun s => containsByte " " s = false) S ->
  strings.Split (strings.Join S resourceIDSelflinkDelim) resourceIDSelflinkDelim = S
  /\ map resourceFromSelflink
         (strings.Split (strings.Join S resourceIDSelflinkDelim) resourceIDSelflinkDelim)
     = map resourceFromSelflink S.
Proof.
  intros Hne Hall. destruct S as [| e rest]; [now elim Hne |].
  rewrite (split_join_delim Hall). split; reflexivity.
Qed.

Lemma split_join_roundtrip_witness :
  strings.Split (strings.Join [Demo.podA; Demo.podB] resourceIDSelflinkDelim)
                resourceIDSelflinkDelim
  = [Demo.podA; Demo.podB]
  /\ map resourceFromSelflink
         (strings.Split (strings.Join [Demo.podA; Demo.podB] resourceIDSelflinkDelim)
                        resourceIDSelflinkDelim)
     = map resourceFromSelflink [Demo.podA; Demo.podB].
Proof.
  apply (@split_join_roundtrip [Demo.podA; Demo.podB]).
  - discriminate.
  - repeat constructor.
Defined.

(** C1, as stated, fails on a self-link that contains a space: the split
    cuts it in two and the segments decode to other locators. *)
Lemma split_join_space_counterexample :
  let S := ["/api/v1/namespaces/default/configmaps/a b"] in
  S <> []
  /\ strings.Split (strings.Join S resourceIDSelflinkDelim) resourceIDSelflinkDelim
     = ["/api/v1/namespaces/default/configmaps/a"; "b"]
  /\ strings.Split (strings.Join S resourceIDSelflinkDelim) resourceIDSelflinkDelim <> S
  /\ map resourceFromSelflink
         (strings.Split (strings.Join S resourceIDSelflinkDelim) resourceIDSelflinkDelim)
     <> map resourceFromSelflink S.
Proof.
  cbv zeta. repeat split; try discriminate; reflexivity.
Qed.

(** C4, as amended.  When the kind-and-name segment of a self-link does
    not percent-decode, [resourceFromSelflink] returns the empty string in
    place of the resource (what the failed decoder handed back, not the
    undecoded segment), the namespace found in the path, and [ok = false]. *)
Theorem resourceFromSelflink_escape_failure (s : string) :
  2 <= List.length (strings.Split s "/") ->
  snd (url.PathUnescape (kindAndName (strings.Split s "/"))) <> None ->
  resourceFromSelflink s
  = ("", namespaceLoop (strings.Split s "/") 0 (strings.Split s "/"), false).
Proof.
  intros Hlen Herr. unfold resourceFromSelflink.
  destruct (Nat.ltb_spec (List.length (strings.Split s "/")) 2) as [Hlt | _]; [lia |].
  unfold url.PathUnescape in *.
  destruct (url.checkEscapes (kindAndName (strings.Split s "/"))) as [bad |].
  - reflexivity.
  - now elim Herr.
Qed.

Lemma resourceFromSelflink_escape_failure_witness :
  resourceFromSelflink "/api/v1/namespaces/default/configmaps/a%2"
  = ("", "default", false).
Proof.
  apply (@resourceFromSelflink_escape_failure
           "/api/v1/namespaces/default/configmaps/a%2").
  - vm_compute. lia.
  - vm_compute. discriminate.
Defined.

(** C4, as stated, fails: the segment [configmaps/a%20b%zz] does not
    decode, and what comes back is neither that segment nor a partly
    decoded form of it. *)
Lemma resourceFromSelflink_escape_failure_counterexample :
  let s := "/api/v1/namespaces/default/configmaps/a%20b%zz" in
  kindAndName (strings.Split s "/") = "configmaps/a%20b%zz"
  /\ url.PathUnescape "configmaps/a%20b%zz" = ("", Some "%zz")
  /\ resourceFromSelflink s = ("", "default", false)
  /\ fst (fst (resourceFromSelflink s)) <> "configmaps/a%20b%zz"
  /\ fst (fst (resourceFromSelflink s)) <> "configmaps/a b%zz".
Proof.
  cbv zeta. repeat split; try reflexivity; vm_compute; discriminate.
Qed.

(** The namespace loop stops at the first [namespaces] segment that has a
    successor; without a successor it runs to the end and finds nothing. *)
Lemma namespaceLoop_first (pre0 pre tail : list string) :
  ~ In "namespaces" pre ->
  namespaceLoop (pre0 ++ pre ++ "namespaces" :: tail) (List.length pre0)
                (pre ++ "namespaces" :: tail)
  = hd "" tail.
Proof.
  revert pre0. induction pre as [| p pre IH]; intros pre0 Hnot.
  - destruct tail as [| x tail];
      cbn [app namespaceLoop hd]; rewrite String.eqb_refl; cbn [andb];
      rewrite length_app; cbn [List.length];
      match goal with |- context [(?a <? ?b)%nat] => destruct (Nat.ltb_spec a b) end;
      try lia; try reflexivity.
    rewrite app_nth2 by lia.
    replace (List.length pre0 + 1 - List.length pre0) with 1 by lia. reflexivity.
  - cbn [app namespaceLoop].
    destruct (String.eqb_spec p "namespaces") as [-> | _].
    + elim Hnot. now left.
    + cbn [andb].
      replace (pre0 ++ p :: pre ++ "namespaces" :: tail)
        with ((pre0 ++ [p]) ++ pre ++ "namespaces" :: tail)
        by (rewrite <- app_assoc; reflexivity).
      replace (List.length pre0 + 1) with (List.length (pre0 ++ [p]))
        by (rewrite length_app; reflexivity).
      apply IH. intros Hin. apply Hnot. now right.
Qed.

(** C10.  The namespace is the segment that follows the first
    [namespaces] segment, also when [namespaces] occurs again later; when
    the only [namespaces] segment is the last one, the namespace is empty
    and [ok] depends on the percent-decoding alone. *)
Theorem namespace_after_first_occurrence (s : string) (pre tail : list string) :
  strings.Split s "/" = pre ++ "namespaces" :: tail ->
  ~ In "namespaces" pre ->
  snd (fst (resourceFromSelflink s)) = hd "" tail
  /\ (tail = [] -> pre <> [] ->
      resourceFromSelflink s
      = (fst (url.PathUnescape (kindAndName (strings.Split s "/"))), "",
         match snd (url.PathUnescape (kindAndName (strings.Split s "/"))) with
         | None => true
         | Some _ => false
         end)).
Proof.
  intros Hsplit Hnot.
  pose proof (@namespaceLoop_first [] pre tail Hnot) as Hns.
  cbn [app List.length] in Hns.
  unfold resourceFromSelflink. rewrite Hsplit.
  destruct (Nat.ltb_spec (List.length (pre ++ "namespaces" :: tail)) 2) as [Hlt | Hge].
  - rewrite length_app in Hlt. cbn [List.length] in Hlt.
    destruct tail; [| cbn [List.length] in Hlt; lia].
    split; [reflexivity |].
    intros _ Hpre. destruct pre; [now elim Hpre | cbn [List.length] in Hlt; lia].
  - rewrite Hns.
    destruct (url.PathUnescape (kindAndName (pre ++ "namespaces" :: tail)))
      as [r [bad |]]; cbn [fst snd].
    + split; [reflexivity | now intros ->].
    + split; [reflexivity | now intros ->].
Qed.

Lemma namespace_after_first_occurrence_witness :
  snd (fst (resourceFromSelflink "/api/v1/namespaces/prod/configmaps/namespaces"))
  = "prod"
  /\ resourceFromSelflink "/api/v1/namespaces" = ("v1/namespaces", "", true).
Proof.
  split.
  - apply (@namespace_after_first_occurrence
             "/api/v1/namespaces/prod/configmaps/namespaces"
             [""; "api"; "v1"] ["prod"; "configmaps"; "namespaces"]).
    + reflexivity.
    + cbn. intros [H | [H | [H | []]]]; discriminate H.
  - apply (@namespace_after_first_occurrence "/api/v1/namespaces" [""; "api"; "v1"] []).
    + reflexivity.
    + cbn. intros [H | [H | [H | []]]]; discriminate H.
    + reflexivity.
    + discriminate.
Defined.

(** ** The adapter *)

Lemma nonEmpty_true (s : string) : s <> "" -> nonEmpty s = true.
Proof.
  intros H. unfold nonEmpty. destruct (String.eqb_spec s ""); [now elim H | reflexivity].
Qed.

Section AdapterFacts.

Context {env : Env}.

(** *** The log *)

Lemma noRuns_app (evs1 evs2 : list Event) :
  noRuns evs1 -> noRuns evs2 -> noRuns (evs1 ++ evs2).
Proof.
  unfold noRuns. intros H1 H2. now rewrite existsb_app, H1, H2.
Qed.

Lemma noRuns_not_In (evs : list Event) (cmd : Cmd) (fin : Finished) :
  noRuns evs -> ~ In (EvRun cmd fin) evs.
Proof.
  unfold noRuns. intros H Hin.
  assert (existsb isRun evs = true) as Ht
      by (apply existsb_exists; exists (EvRun cmd fin); now split).
  congruence.
Qed.

(** Closes a goal in which a sub-process is claimed to be in a stretch of
    the log that has none. *)
Ltac absurd_run Hin :=
  exfalso; eapply noRuns_not_In; [| exact Hin]; assumption.

Lemma noRuns_blank (evs : list Event) :
  noRuns evs -> existsb isBlankRun evs = false.
Proof.
  unfold noRuns. induction evs as [| e evs IH]; [reflexivity |].
  cbn [existsb]. intros H. apply orb_false_elim in H as [He Hevs].
  rewrite (IH Hevs). destruct e; cbn in *; try reflexivity; discriminate.
Qed.

Lemma quiet_id : quiet (fun st => st).
Proof.
  intros st. exists []. split; [now rewrite app_nil_r | reflexivity].
Qed.

Lemma quiet_Remove (name : string) : quiet (Remove name).
Proof.
  intros st. exists [EvRemove name]. split; reflexivity.
Qed.

(** Resolving the credentials runs no sub-process, and neither does the
    release function it hands out. *)
Lemma kubeconfigPath_trace (m : config) (st : St) :
  (exists evs, trace (snd (kubeconfigPath m st)) = trace st ++ evs /\ noRuns evs)
  /\ quiet (snd (fst (fst (kubeconfigPath m st)))).
Proof.
  unfold kubeconfigPath, TempFile, WriteString, Close. cbv zeta.
  repeat match goal with
         | |- context [ioutil_TempFile ?w] =>
             destruct (ioutil_TempFile w) as [[? | ?] ?]; cbv iota beta
         | |- context [io_WriteString ?a ?b ?w] =>
             destruct (io_WriteString a b w) as [[? |] ?]; cbv iota beta
         | |- context [file_Close ?a ?w] =>
             destruct (file_Close a w) as [[? |] ?]; cbv iota beta
         | |- context [if ?b then _ else _] => destruct b
         end;
    cbn [fst snd trace Remove];
    (split; [| first [apply quiet_id | apply quiet_Remove]]);
    rewrite <- ?app_assoc; eexists;
    (split; [first [reflexivity | symmetry; apply app_nil_r] | reflexivity]).
Qed.

(** Running a command logs exactly that command and what it left. *)
Lemma run_trace (cmd : Cmd) (st : St) :
  exists fin,
    trace (snd (run cmd st)) = trace st ++ [EvRun cmd fin]
    /\ snd (fst (run cmd st)) = Stdout fin
    /\ (fst (fst (run cmd st)) = None <-> runErr fin = None).
Proof.
  unfold run. destruct (cmd_Run cmd (world st)) as [fin w]. exists fin.
  destruct (runErr fin) as [err |].
  - destruct (String.length (Stderr fin) =? 0)%nat; cbn [fst snd trace];
      repeat split; intros; discriminate.
  - cbn [fst snd trace]. repeat split.
Qed.

(** C5, as amended.  With a credentials path and a context both set, the
    argument list is the command name, then the [--context] pair, then the
    [--kubeconfig] pair, then the verb and its arguments. *)
Theorem kubectl_flag_order (m : config) (path : string) (args : list string) :
  path <> "" ->
  kubeconfigContext m <> "" ->
  Args (kubectl m path args)
  = "kubectl" :: "--context" :: kubeconfigContext m :: "--kubeconfig" :: path :: args.
Proof.
  intros Hp Hc. unfold kubectl.
  rewrite (nonEmpty_true Hp), (nonEmpty_true Hc). reflexivity.
Qed.

  (** *** Create and Update *)

(** C9.  Update leaves the resource data, and so the identity, as it found
    them, whether it succeeds or fails; the only sub-process it can run is
    the apply of the manifest content. *)
Theorem update_keeps_identity (d : ResourceData) (m : config) (st : St) :
  Id (snd (fst (resourceManifestUpdate d m st))) = Id d
  /\ exists evs,
      trace (snd (resourceManifestUpdate d m st)) = trace st ++ evs
      /\ forall cmd fin,
          In (EvRun cmd fin) evs ->
          exists path, cmd = withStdin (kubectl m path ["apply"; "-f"; "-"]) (content d).
Proof.
  unfold resourceManifestUpdate.
  destruct (kubeconfigPath_trace m st) as [[evs1 [Ht1 Hn1]] Hq].
  destruct (kubeconfigPath m st) as [[[path cleanup] err] st1].
  cbn [fst snd] in Ht1, Hq.
  destruct err as [err |].
  - cbn [fst snd]. split; [reflexivity |].
    exists evs1. split; [exact Ht1 |].
    intros cmd fin Hin. absurd_run Hin.
  - set (apply := withStdin (kubectl m path ["apply"; "-f"; "-"]) (content d)).
    destruct (run_trace apply st1) as [fin [Ht2 _]].
    destruct (run apply st1) as [[err out] st2].
    cbn [fst snd] in Ht2 |- *.
    destruct (Hq st2) as [evs3 [Ht3 Hn3]].
    split; [reflexivity |].
    exists (evs1 ++ [EvRun apply fin] ++ evs3). split.
    + rewrite Ht3, Ht2, Ht1, <- !app_assoc. reflexivity.
    + intros cmd fin' Hin.
      apply in_app_or in Hin as [Hin | Hin]; [absurd_run Hin |].
      apply in_app_or in Hin as [[Hin | []] | Hin]; [| absurd_run Hin].
      inversion Hin; subst. now exists path.
Qed.

  (** *** Loops over the locators *)

Lemma splitFrom_not_nil (sep s : string) (skip : nat) :
  strings.splitFrom sep skip s <> [].
Proof.
  revert skip. induction s as [| c s IH]; intros skip; cbn [strings.splitFrom].
  - discriminate.
  - destruct skip; [| apply IH].
    destruct (prefix sep (String c s)); [discriminate |].
    unfold strings.consHead. destruct (strings.splitFrom sep 0 s); discriminate.
Qed.

Lemma Split_delim_not_nil (s : string) :
  strings.Split s resourceIDSelflinkDelim <> [].
Proof. apply splitFrom_not_nil. Qed.

Lemma firstn_succ_nth (A : Type) (l : list A) (i : nat) (dflt : A) :
  i < List.length l -> firstn (S i) l = firstn i l ++ [nth i l dflt].
Proof.
  revert i. induction l as [| a l IH]; intros i Hi; cbn [List.length] in Hi.
  - lia.
  - destruct i as [| i]; [reflexivity |].
    cbn [firstn nth app]. f_equal. apply IH. lia.
Qed.

Lemma failures_app_one (errs : list error) (r : option error) (rs : list (option error)) :
  appendErr errs r ++ failures rs = errs ++ failures (r :: rs).
Proof.
  destruct r as [e |]; cbn [appendErr failures]; [| reflexivity].
  now rewrite <- app_assoc.
Qed.

(** The index loop of Delete attempts [resources[n-1]], ..., [resources[0]],
    in that order, and gathers the failures. *)
Lemma deleteLoop_attemptAll (m : config) (resources : list string) (n : nat)
      (errs : list error) (st : St) :
  n <= List.length resources ->
  deleteLoop m resources n errs st
  = let '(rs, st') := attemptAll (deleteResource m) (rev (firstn n resources)) st in
    (errs ++ failures rs, st').
Proof.
  revert errs st. induction n as [| i IH]; intros errs st Hn.
  - cbn. now rewrite app_nil_r.
  - rewrite (@firstn_succ_nth _ resources i "") by lia.
    rewrite rev_app_distr. cbn [rev app deleteLoop attemptAll].
    destruct (deleteResource m (nth i resources "") st) as [r st1].
    rewrite IH by lia.
    destruct (attemptAll (deleteResource m) (rev (firstn i resources)) st1) as [rs st2].
    now rewrite failures_app_one.
Qed.

(** *** Both credential sources configured *)

Lemma kubeconfigPath_conflict (m : config) (st : St) :
  kubeconfig m <> "" ->
  kubeconfigContent m <> "" ->
  kubeconfigPath m st = ((kubeconfig m, fun st' => st', Some ConfigConflict), st).
Proof.
  intros Hp Hc. unfold kubeconfigPath.
  now rewrite (nonEmpty_true Hp), (nonEmpty_true Hc).
Qed.

Lemma deleteResource_conflict (m : config) (selflink : string) (st : St) :
  kubeconfig m <> "" ->
  kubeconfigContent m <> "" ->
  deleteResource m selflink st = (Some (conflictOrInvalid selflink), st).
Proof.
  intros Hp Hc. unfold deleteResource, conflictOrInvalid.
  destruct (resourceFromSelflink selflink) as [[r ns] [|]]; cbn [negb snd];
    [| reflexivity].
  now rewrite kubeconfigPath_conflict by assumption.
Qed.

Lemma readResource_conflict (d : ResourceData) (m : config) (selflink : string) (st : St) :
  kubeconfig m <> "" ->
  kubeconfigContent m <> "" ->
  readResource d m selflink st = (Some (conflictOrInvalid selflink), d, st).
Proof.
  intros Hp Hc. unfold readResource, conflictOrInvalid.
  destruct (resourceFromSelflink selflink) as [[r ns] [|]]; cbn [negb snd];
    [| reflexivity].
  now rewrite kubeconfigPath_conflict by assumption.
Qed.

Lemma attemptAll_delete_conflict (m : config) (ls : list string) (st : St) :
  kubeconfig m <> "" ->
  kubeconfigContent m <> "" ->
  attemptAll (deleteResource m) ls st
  = (map (fun selflink => Some (conflictOrInvalid selflink)) ls, st).
Proof.
  intros Hp Hc. induction ls as [| selflink rest IH]; [reflexivity |].
  cbn [attemptAll map]. now rewrite deleteResource_conflict, IH by assumption.
Qed.

Lemma readLoop_conflict (m : config) (ls : list string) :
  kubeconfig m <> "" ->
  kubeconfigContent m <> "" ->
  forall errs d st,
    readLoop m ls errs d st = (errs ++ map conflictOrInvalid ls, d, st).
Proof.
  intros Hp Hc. induction ls as [| selflink rest IH]; intros errs d st.
  - cbn. now rewrite app_nil_r.
  - cbn [readLoop map]. rewrite readResource_conflict, IH by assumption.
    cbn [appendErr]. now rewrite <- app_assoc.
Qed.

Lemma failures_all (A : Type) (f : A -> error) (l : list A) :
  failures (map (fun x => Some (f x)) l) = map f l.
Proof.
  induction l as [| x l IH]; [reflexivity |]. cbn [map failures]. now rewrite IH.
Qed.

Lemma errsResult_cons (errs : list error) :
  errs <> [] -> errsResult errs = Some (errorList errs).
Proof.
  destruct errs; [intros H; now elim H | reflexivity].
Qed.

(** C6, as amended.  With a credentials path and inline credentials both
    set, no operation runs a sub-process or touches the world or the
    resource data, and each returns an error: Create and Update the
    configuration-conflict error, Read and Delete a list with one error
    per locator of the stored identity (in attempt order), which is the
    configuration-conflict error for a locator that decodes and the
    invalid-id error for one that does not. *)
Theorem conflict_stops_every_operation (d : ResourceData) (m : config) (st : St) :
  kubeconfig m <> "" ->
  kubeconfigContent m <> "" ->
  resourceManifestCreate d m st = (Some conflictError, d, st)
  /\ resourceManifestUpdate d m st = (Some conflictError, d, st)
  /\ resourceManifestRead d m st
     = (Some (errorList (map conflictOrInvalid
                             (strings.Split (Id d) resourceIDSelflinkDelim))), d, st)
  /\ resourceManifestDelete d m st
     = (Some (errorList (map conflictOrInvalid
                             (rev (strings.Split (Id d) resourceIDSelflinkDelim)))), d, st).
Proof.
  intros Hp Hc. repeat split.
  - unfold resourceManifestCreate. now rewrite kubeconfigPath_conflict by assumption.
  - unfold resourceManifestUpdate. now rewrite kubeconfigPath_conflict by assumption.
  - unfold resourceManifestRead. rewrite readLoop_conflict by assumption. cbn [app].
    rewrite errsResult_cons; [reflexivity |].
    intros H. apply map_eq_nil in H. exact (Split_delim_not_nil _ H).
  - unfold resourceManifestDelete.
    rewrite deleteLoop_attemptAll by lia. rewrite firstn_all.
    rewrite attemptAll_delete_conflict by assumption. rewrite failures_all. cbn [app].
    rewrite errsResult_cons; [reflexivity |].
    intros H. apply map_eq_nil in H.
    apply (f_equal (@rev string)) in H. rewrite rev_involutive in H.
    exact (Split_delim_not_nil _ H).
Qed.

End AdapterFacts.

Lemma kubectl_flag_order_witness :
  Args (kubectl (env := Demo.cluster) Demo.withContext "/home/op/.kube/config"
                ["apply"; "-f"; "-"])
  = ["kubectl"; "--context"; "staging"; "--kubeconfig"; "/home/op/.kube/config";
     "apply"; "-f"; "-"].
Proof.
  apply (@kubectl_flag_order Demo.cluster Demo.withContext "/home/op/.kube/config"
                             ["apply"; "-f"; "-"]).
  - discriminate.
  - discriminate.
Defined.

(** C5, as stated, fails: the [--kubeconfig] pair does not come first. *)
Lemma kubectl_flag_order_counterexample :
  kubeconfigContext Demo.withContext <> ""
  /\ Args (kubectl (env := Demo.cluster) Demo.withContext "/home/op/.kube/config"
                   ["apply"; "-f"; "-"])
     <> ["kubectl"; "--kubeconfig"; "/home/op/.kube/config"; "--context"; "staging";
         "apply"; "-f"; "-"].
Proof.
  split; vm_compute; discriminate.
Qed.

Lemma conflict_stops_every_operation_witness :
  let d := {| content := Demo.twoPods; Id := Demo.twoPodsId |} in
  resourceManifestCreate (env := Demo.cluster) d Demo.both Demo.start
  = (Some conflictError, d, Demo.start)
  /\ resourceManifestUpdate (env := Demo.cluster) d Demo.both Demo.start
     = (Some conflictError, d, Demo.start)
  /\ resourceManifestRead (env := Demo.cluster) d Demo.both Demo.start
     = (Some (errorList (map conflictOrInvalid
                             (strings.Split (Id d) resourceIDSelflinkDelim))),
        d, Demo.start)
  /\ resourceManifestDelete (env := Demo.cluster) d Demo.both Demo.start
     = (Some (errorList (map conflictOrInvalid
                             (rev (strings.Split (Id d) resourceIDSelflinkDelim)))),
        d, Demo.start).
Proof.
  cbv zeta.
  apply (@conflict_stops_every_operation Demo.cluster
           {| content := Demo.twoPods; Id := Demo.twoPodsId |} Demo.both Demo.start).
  - discriminate.
  - discriminate.
Defined.

(** C6, as stated, fails for Read and Delete on a stored identity with a
    segment that does not decode: the credentials are never resolved for
    it and the error returned is the invalid-id error, not the
    configuration conflict. *)
Lemma conflict_invalid_id_counterexample :
  let d := {| content := Demo.twoPods; Id := "short" |} in
  kubeconfig Demo.both <> ""
  /\ kubeconfigContent Demo.both <> ""
  /\ resourceManifestDelete (env := Demo.cluster) d Demo.both Demo.start
     = (Some (errorList [Errorf "invalid resource id: short"]), d, Demo.start)
  /\ resourceManifestRead (env := Demo.cluster) d Demo.both Demo.start
     = (Some (errorList [Errorf "invalid resource id: short"]), d, Demo.start)
  /\ Errorf "invalid resource id: short" <> conflictError
  /\ Errorf "invalid resource id: short" <> ConfigConflict.
Proof.
  cbv zeta. repeat split; try reflexivity; discriminate.
Qed.

(** ** The adapter at work on the small cluster *)

(** Deleting two pods when the deletion of the second fails: the second is
    attempted first, the first is still attempted, and the error holds the
    one failure. *)
Example delete_two_pods_second_fails :
  let d := {| content := Demo.twoPods; Id := Demo.twoPodsId |} in
  let res := resourceManifestDelete (env := Demo.cluster) d Demo.byPath Demo.start in
  fst (fst res)
  = Some (errorList
            [Errorf ("/usr/local/bin/kubectl kubectl --kubeconfig /home/op/.kube/config"
                     ++ " delete pods/b -n default exit status 1:"
                     ++ " Error from server (Forbidden)")%string])
  /\ Demo.commands (snd res)
     = [ ["kubectl"; "--kubeconfig"; "/home/op/.kube/config";
          "delete"; "pods/b"; "-n"; "default"];
         ["kubectl"; "--kubeconfig"; "/home/op/.kube/config";
          "delete"; "pods/a"; "-n"; "default"] ].
Proof. split; reflexivity. Qed.

(** Reading two pods when the second is gone: both are queried, no error
    is returned and the identity is cleared. *)
Example read_two_pods_second_gone :
  let d := {| content := Demo.twoPods; Id := Demo.twoPodsId |} in
  let res := resourceManifestRead (env := Demo.cluster) d Demo.byPath Demo.start in
  fst res = (None, SetId d "")
  /\ Demo.commands (snd res)
     = [ ["kubectl"; "--kubeconfig"; "/home/op/.kube/config";
          "get"; "--ignore-not-found"; "pods/a"; "-n"; "default"];
         ["kubectl"; "--kubeconfig"; "/home/op/.kube/config";
          "get"; "--ignore-not-found"; "pods/b"; "-n"; "default"] ].
Proof. split; reflexivity. Qed.

(** Creating from a manifest with two pods sets the identity to their
    self-links joined by a space; a later Update leaves it alone. *)
Example create_then_update_two_pods :
  let d := {| content := Demo.twoPods; Id := "" |} in
  let created := resourceManifestCreate (env := Demo.cluster) d Demo.byPath Demo.start in
  fst created = (None, SetId d Demo.twoPodsId)
  /\ fst (resourceManifestUpdate (snd (fst created)) Demo.byPath (snd created))
     = (None, SetId d Demo.twoPodsId).
Proof. split; reflexivity. Qed.

(** * Further properties *)

(** ** The codec on other inputs *)

Lemma splitFrom_byte_step (d c : ascii) (s : string) :
  strings.splitFrom (String d "") 0 (String c s)
  = if Ascii.eqb c d
    then "" :: strings.splitFrom (String d "") 0 s
    else strings.consHead c (strings.splitFrom (String d "") 0 s).
Proof.
  assert (Hp : prefix (String d "") (String c s) = Ascii.eqb c d).
  { cbn [prefix]. destruct (ascii_dec d c) as [<- | Hne].
    - rewrite Ascii.eqb_refl. now destruct s.
    - destruct (Ascii.eqb_spec c d) as [-> | _]; [now elim Hne | reflexivity]. }
  cbn [strings.splitFrom]. rewrite Hp. reflexivity.
Qed.

Lemma split_without_byte (d : ascii) (s : string) :
  containsByte d s = false -> strings.splitFrom (String d "") 0 s = [s].
Proof.
  induction s as [| c s IH]; intros H; [reflexivity |].
  rewrite splitFrom_byte_step. cbn [containsByte] in H.
  apply orb_false_elim in H as [Hc Hs]. rewrite Hc, (IH Hs). reflexivity.
Qed.








(** X1.  A string without a slash is no locator: [resourceFromSelflink]
    returns empty strings and [ok = false]. *)
Theorem resourceFromSelflink_without_slash (s : string) :
  containsByte "/" s = false ->
  resourceFromSelflink s = ("", "", false).
Proof.
  intros H. unfold resourceFromSelflink, strings.Split.
  now rewrite split_without_byte by exact H.
Qed.

Lemma resourceFromSelflink_without_slash_witness :
  resourceFromSelflink "short" = ("", "", false).
Proof.
  apply (@resourceFromSelflink_without_slash "short"). reflexivity.
Defined.



Lemma namespaceLoop_absent (parts rest : list string) (i : nat) :
  ~ In "namespaces" rest -> namespaceLoop parts i rest = "".
Proof.
  revert i. induction rest as [| part rest IH]; intros i Hnot; [reflexivity |].
  cbn [namespaceLoop].
  destruct (String.eqb_spec part "namespaces") as [-> | _].
  - elim Hnot. now left.
  - cbn [andb]. apply IH. intros Hin. apply Hnot. now right.
Qed.

(** X3.  A self-link with no [namespaces] segment (a cluster-scoped
    object) has the empty namespace. *)
Theorem namespace_absent (s : string) :
  ~ In "namespaces" (strings.Split s "/") ->
  snd (fst (resourceFromSelflink s)) = "".
Proof.
  intros Hnot. unfold resourceFromSelflink.
  destruct (List.length (strings.Split s "/") <? 2)%nat; [reflexivity |].
  rewrite namespaceLoop_absent by exact Hnot.
  destruct (url.PathUnescape (kindAndName (strings.Split s "/"))) as [r [bad |]];
    reflexivity.
Qed.

Lemma namespace_absent_witness :
  snd (fst (resourceFromSelflink "/api/v1/nodes/worker-1")) = "".
Proof.
  apply (@namespace_absent "/api/v1/nodes/worker-1").
  cbn. intros [H | [H | [H | [H | [H | []]]]]]; discriminate H.
Defined.

Lemma Join_consHead (c : ascii) (l : list string) (sep : string) :
  l <> [] ->
  strings.Join (strings.consHead c l) sep = String c (strings.Join l sep).
Proof.
  destruct l as [| h [| h' t]]; [intros H; now elim H | reflexivity | reflexivity].
Qed.

(** X4.  Splitting a stored identity on the delimiter loses nothing:
    joining the segments with the delimiter gives the identity back, and no
    segment contains the delimiter. *)
Theorem join_split_lossless (id : string) :
  strings.Join (strings.Split id resourceIDSelflinkDelim) resourceIDSelflinkDelim = id
  /\ Forall (fun seg => containsByte " " seg = false)
            (strings.Split id resourceIDSelflinkDelim).
Proof.
  change (strings.Split id resourceIDSelflinkDelim)
    with (strings.splitFrom resourceIDSelflinkDelim 0 id).
  induction id as [| c id [IHj IHf]].
  - split; [reflexivity | repeat constructor].
  - rewrite splitFrom_delim_step.
    pose proof (@splitFrom_not_nil resourceIDSelflinkDelim id 0) as Hnil.
    destruct (Ascii.eqb_spec c " ") as [-> | Hc].
    + split.
      * destruct (strings.splitFrom resourceIDSelflinkDelim 0 id) as [| h t] eqn:E;
          [now elim Hnil |].
        change (strings.Join ("" :: h :: t) resourceIDSelflinkDelim)
          with (String " " (strings.Join (h :: t) resourceIDSelflinkDelim)).
        now rewrite IHj.
      * constructor; [reflexivity | exact IHf].
    + split.
      * rewrite Join_consHead by exact Hnil. now rewrite IHj.
      * unfold strings.consHead.
        destruct IHf as [| seg rest Hseg Hrest].
        -- now elim Hnil.
        -- constructor; [| exact Hrest]. cbn [containsByte].
           destruct (Ascii.eqb_spec c " "); [contradiction | exact Hseg].
Qed.

(** ** What counts as blank output *)

Lemma asciiSpace_IsSpace (c : ascii) :
  asciiSpace c = true ->
  (byte_in 0 127 c && strings.IsSpace (N_of_ascii c))%bool = true.
Proof.
  destruct c as [[] [] [] [] [] [] [] []]; vm_compute; intros H;
    first [reflexivity | discriminate H].
Qed.

Lemma visible_not_space (c : ascii) :
  visible c = true ->
  (byte_in 0 127 c && strings.IsSpace (N_of_ascii c))%bool = false.
Proof.
  destruct c as [[] [] [] [] [] [] [] []]; vm_compute; intros H;
    first [reflexivity | discriminate H].
Qed.

Lemma high_not_visible (lo hi : N) (c : ascii) :
  byte_in lo hi c = true -> (128 <= lo)%N -> visible c = false.
Proof.
  unfold byte_in, visible, byte_in. intros H Hlo.
  apply andb_prop in H as [H1 _]. apply N.leb_le in H1.
  apply andb_false_iff. right. apply N.leb_gt. lia.
Qed.

Lemma valid2_not_visible (b0 b1 : ascii) :
  strings.valid2 b0 b1 = true -> visible b0 = false /\ visible b1 = false.
Proof.
  unfold strings.valid2, strings.cont. intros H. apply andb_prop in H as [H0 H1].
  split; eapply high_not_visible; try eassumption; lia.
Qed.

Lemma valid3_not_visible (b0 b1 b2 : ascii) :
  strings.valid3 b0 b1 b2 = true ->
  visible b0 = false /\ visible b1 = false /\ visible b2 = false.
Proof.
  unfold strings.valid3, strings.cont. intros H. apply andb_prop in H as [H H2].
  repeat (apply orb_prop in H as [H | H]);
    apply andb_prop in H as [H0 H1];
    repeat split; eapply high_not_visible; try eassumption; lia.
Qed.

(** Trimming on the left never removes a visible byte. *)
Lemma TrimLeftSpace_keeps_visible (n : nat) :
  forall s, String.length s <= n ->
            someByte visible s = true ->
            someByte visible (strings.TrimLeftSpace s) = true.
Proof.
  induction n as [| n IH]; intros s Hlen Hvis.
  - destruct s; [discriminate Hvis | cbn in Hlen; lia].
  - destruct s as [| b0 s1]; [discriminate Hvis |].
    cbn [String.length] in Hlen. cbn [strings.TrimLeftSpace].
    destruct (byte_in 0 127 b0 && strings.IsSpace (N_of_ascii b0))%bool eqn:E1.
    { apply IH; [lia |]. cbn [someByte] in Hvis.
      destruct (visible b0) eqn:Ev; [| exact Hvis].
      rewrite (visible_not_space _ Ev) in E1. discriminate E1. }
    destruct s1 as [| b1 s2]; [exact Hvis |].
    cbn [String.length] in Hlen.
    destruct (strings.valid2 b0 b1 && strings.IsSpace (strings.rune2 b0 b1))%bool eqn:E2.
    { apply andb_prop in E2 as [E2 _].
      destruct (valid2_not_visible _ _ E2) as [V0 V1].
      apply IH; [lia |]. cbn [someByte] in Hvis. now rewrite V0, V1 in Hvis. }
    destruct s2 as [| b2 s3]; [exact Hvis |].
    cbn [String.length] in Hlen.
    destruct (strings.valid3 b0 b1 b2 && strings.IsSpace (strings.rune3 b0 b1 b2))%bool
      eqn:E3; [| exact Hvis].
    apply andb_prop in E3 as [E3 _].
    destruct (valid3_not_visible _ _ _ E3) as [V0 [V1 V2]].
    apply IH; [lia |]. cbn [someByte] in Hvis. now rewrite V0, V1, V2 in Hvis.
Qed.

(** X5.  Output made of ASCII white space only (spaces, tabs, line ends),
    the empty output included, is blank: Read takes the object as gone. *)
Theorem blank_ascii_space (stdout : string) :
  everyByte asciiSpace stdout = true -> blank stdout = true.
Proof.
  intros H. unfold blank, strings.TrimSpace.
  assert (Hl : strings.TrimLeftSpace stdout = "").
  { induction stdout as [| c s IH]; [reflexivity |].
    cbn [everyByte] in H. apply andb_prop in H as [Hc Hs].
    cbn [strings.TrimLeftSpace]. rewrite (asciiSpace_IsSpace _ Hc). now apply IH. }
  rewrite Hl. reflexivity.
Qed.

(** X6.  Output with at least one visible ASCII byte is never blank,
    whatever surrounds it: Read keeps the identity on such an output. *)
Theorem blank_visible (stdout : string) :
  someByte visible stdout = true -> blank stdout = false.
Proof.
  intros H. unfold blank, strings.TrimSpace.
  pose proof (@TrimLeftSpace_keeps_visible (String.length stdout) stdout (le_n _) H) as H1.
  set (t := strings.TrimLeftSpace stdout) in *.
  pose proof (@TrimLeftSpace_keeps_visible (String.length t) t (le_n _) H1) as H2.
  destruct t as [| c t']; [discriminate H1 |].
  cbn [strings.TrimRightSpace].
  destruct (strings.TrimLeftSpace (String c t')) as [| c' u]; [discriminate H2 |].
  reflexivity.
Qed.

(** ** More on the adapter *)

Section AdapterMore.

Context {env : Env}.

Lemma noRuns_runsOf (evs : list Event) : noRuns evs -> runsOf evs = [].
Proof.
  unfold noRuns, runsOf. induction evs as [| e evs IH]; [reflexivity |].
  cbn [existsb filter]. intros H. apply orb_false_elim in H as [He Hevs].
  rewrite He. now apply IH.
Qed.

Lemma runsOf_app (evs1 evs2 : list Event) :
  runsOf (evs1 ++ evs2) = runsOf evs1 ++ runsOf evs2.
Proof. apply filter_app. Qed.

(** *** Create *)

Lemma selflinksLoop_ok (stdout : string) (items : list Item) :
  forall acc selflinks,
    selflinksLoop stdout items acc = inr selflinks ->
    selflinks = acc ++ map selflinkOf items
    /\ Forall (fun item => selflinkOf item <> "") items.
Proof.
  induction items as [| item rest IH]; intros acc selflinks H; cbn [selflinksLoop] in H.
  - inversion H; subst. split; [now rewrite app_nil_r | constructor].
  - fold (selflinkOf item) in H.
    destruct (String.eqb_spec (selflinkOf item) "") as [_ | Hne]; [discriminate H |].
    destruct (IH _ _ H) as [Hs Hall]. split.
    + rewrite Hs, <- app_assoc. reflexivity.
    + now constructor.
Qed.

Lemma selflinksLoop_missing (stdout : string) (items : list Item) :
  Exists (fun item => selflinkOf item = "") items ->
  forall acc,
    selflinksLoop stdout items acc
    = inl (Errorf ("could not parse self-link from response " ++ stdout)%string).
Proof.
  induction 1 as [item rest Hitem | item rest _ IH]; intros acc; cbn [selflinksLoop];
    fold (selflinkOf item).
  - now rewrite Hitem.
  - destruct (selflinkOf item =? ""); [reflexivity | apply IH].
Qed.



(** X9.  When the structured get succeeds but one of the decoded items has
    no self-link, Create fails with the could-not-parse error quoting the
    whole output, and sets no identity, whatever the other items hold. *)
Theorem create_missing_selflink (d : ResourceData) (m : config) (st : St)
        (path : string) (cleanup : St -> St) (st1 st2 st3 : St)
        (out1 out : string) (items : list Item) :
  kubeconfigPath m st = ((path, cleanup, None), st1) ->
  run (withStdin (kubectl m path ["apply"; "-f"; "-"]) (content d)) st1
  = ((None, out1), st2) ->
  run (withStdin (kubectl m path ["get"; "-f"; "-"; "-o"; "json"]) (content d)) st2
  = ((None, out), st3) ->
  json_Unmarshal out = inr items ->
  Exists (fun item => selflinkOf item = "") items ->
  resourceManifestCreate d m st
  = (Some (Errorf ("could not parse self-link from response " ++ out)%string),
     d, cleanup st3).
Proof.
  intros Hk Happly Hget Hjson Hex.
  unfold resourceManifestCreate. rewrite Hk, Happly, Hget, Hjson.
  destruct items as [| item rest]; [inversion Hex |].
  cbn [List.length Nat.eqb].
  now rewrite (selflinksLoop_missing out Hex).
Qed.

(** *** Delete and Read *)

(** *** Locators that do not decode *)

Lemma deleteResource_invalid (m : config) (selflink : string) (st : St) :
  snd (resourceFromSelflink selflink) = false ->
  deleteResource m selflink st = (Some (invalidId selflink), st).
Proof.
  unfold deleteResource.
  destruct (resourceFromSelflink selflink) as [[r ns] ok]. cbn [snd].
  now intros ->.
Qed.

Lemma readResource_invalid (d : ResourceData) (m : config) (selflink : string) (st : St) :
  snd (resourceFromSelflink selflink) = false ->
  readResource d m selflink st = (Some (invalidId selflink), d, st).
Proof.
  unfold readResource.
  destruct (resourceFromSelflink selflink) as [[r ns] ok]. cbn [snd].
  now intros ->.
Qed.

Lemma attemptAll_delete_invalid (m : config) (ls : list string) (st : St) :
  Forall (fun selflink => snd (resourceFromSelflink selflink) = false) ls ->
  attemptAll (deleteResource m) ls st
  = (map (fun selflink => Some (invalidId selflink)) ls, st).
Proof.
  induction 1 as [| selflink rest Hsl _ IH]; [reflexivity |].
  cbn [attemptAll map]. rewrite deleteResource_invalid by exact Hsl. now rewrite IH.
Qed.

Lemma readLoop_invalid (m : config) (ls : list string) :
  Forall (fun selflink => snd (resourceFromSelflink selflink) = false) ls ->
  forall errs d st,
    readLoop m ls errs d st = (errs ++ map invalidId ls, d, st).
Proof.
  induction 1 as [| selflink rest Hsl _ IH]; intros errs d st.
  - cbn. now rewrite app_nil_r.
  - cbn [readLoop map]. rewrite readResource_invalid by exact Hsl. rewrite IH.
    cbn [appendErr]. now rewrite <- app_assoc.
Qed.

(** X12.  On a stored identity none of whose segments decodes (the empty
    identity is one), Read and Delete run nothing and change nothing, the
    identity included, and return one invalid-id error per segment, Read
    in the order of the segments and Delete in the reverse order. *)
Theorem undecodable_identity (d : ResourceData) (m : config) (st : St) :
  Forall (fun selflink => snd (resourceFromSelflink selflink) = false)
         (strings.Split (Id d) resourceIDSelflinkDelim) ->
  resourceManifestRead d m st
  = (Some (errorList (map invalidId (strings.Split (Id d) resourceIDSelflinkDelim))),
     d, st)
  /\ resourceManifestDelete d m st
     = (Some (errorList (map invalidId
                             (rev (strings.Split (Id d) resourceIDSelflinkDelim)))),
        d, st).
Proof.
  intros Hall. split.
  - unfold resourceManifestRead. rewrite readLoop_invalid by exact Hall. cbn [app].
    rewrite errsResult_cons; [reflexivity |].
    intros H. apply map_eq_nil in H. exact (Split_delim_not_nil _ H).
  - unfold resourceManifestDelete.
    rewrite deleteLoop_attemptAll by lia. rewrite firstn_all.
    rewrite attemptAll_delete_invalid by (apply Forall_rev; exact Hall).
    rewrite failures_all. cbn [app].
    rewrite errsResult_cons; [reflexivity |].
    intros H. apply map_eq_nil in H.
    apply (f_equal (@rev string)) in H. rewrite rev_involutive in H.
    exact (Split_delim_not_nil _ H).
Qed.

(** *** Temporary credential files *)

Lemma released_app (evs1 evs2 : list Event) :
  released evs1 = true -> released evs2 = true -> released (evs1 ++ evs2) = true.
Proof.
  intros H1 H2. induction evs1 as [| e evs1 IH]; [exact H2 |].
  destruct e; cbn [app released] in *; try (now apply IH).
  apply andb_prop in H1 as [Hex Hrel].
  rewrite existsb_app, Hex. cbn [orb andb]. now apply IH.
Qed.

Lemma released_removed_last (name : string) (evs : list Event) :
  released evs = true -> released (evs ++ [EvRemove name]) = true.
Proof. intros H. now apply released_app. Qed.

Lemma removed_last (name : string) (evs : list Event) :
  existsb (isRemoveOf name) (evs ++ [EvRemove name]) = true.
Proof.
  rewrite existsb_app. cbn [existsb isRemoveOf]. rewrite String.eqb_refl.
  now rewrite orb_true_r.
Qed.

(** What [kubeconfigPath] logs is balanced when it fails, and, whatever the
    caller logs next, becomes balanced once the caller has run the release
    function. *)
Lemma kubeconfigPath_released (m : config) (st : St) :
  exists evs1,
    trace (snd (kubeconfigPath m st)) = trace st ++ evs1
    /\ (snd (fst (kubeconfigPath m st)) <> None -> released evs1 = true)
    /\ forall evs2 st2,
        released evs2 = true ->
        exists evsC,
          trace (snd (fst (fst (kubeconfigPath m st))) st2) = trace st2 ++ evsC
          /\ released (evs1 ++ evs2 ++ evsC) = true.
Proof.
  unfold kubeconfigPath, TempFile, WriteString, Close. cbv zeta.
  repeat match goal with
         | |- context [ioutil_TempFile ?w] =>
             destruct (ioutil_TempFile w) as [[? | ?] ?]; cbv iota beta
         | |- context [io_WriteString ?a ?b ?w] =>
             destruct (io_WriteString a b w) as [[? |] ?]; cbv iota beta
         | |- context [file_Close ?a ?w] =>
             destruct (file_Close a w) as [[? |] ?]; cbv iota beta
         | |- context [if ?b then _ else _] => destruct b
         end;
    cbn [fst snd trace Remove];
    rewrite <- ?app_assoc; eexists;
    (split; [first [reflexivity | symmetry; apply app_nil_r] |]);
    (split;
     [ intros Hsome;
       first [ now elim Hsome
             | cbn [app released existsb isRemoveOf];
               rewrite ?String.eqb_refl; reflexivity ]
     | intros evs2 st2 Hrel; eexists;
       (split; [first [reflexivity | symmetry; apply app_nil_r] |]);
       cbn [app released existsb isRemoveOf orb andb];
       rewrite ?String.eqb_refl; cbn [orb andb];
       rewrite ?app_nil_r, ?removed_last; cbn [andb];
       first [exact Hrel | now apply released_removed_last] ]).
Qed.

(** One locator of Read or Delete leaves a balanced log. *)
Lemma deleteResource_released (m : config) (selflink : string) (st : St) :
  exists evs,
    trace (snd (deleteResource m selflink st)) = trace st ++ evs
    /\ released evs = true.
Proof.
  unfold deleteResource.
  destruct (resourceFromSelflink selflink) as [[r ns] [|]]; cbn [negb].
  - destruct (kubeconfigPath_released m st) as [evs1 [Ht1 [Hfail Hok]]].
    destruct (kubeconfigPath m st) as [[[path cleanup] err] st1].
    cbn [fst snd] in Ht1, Hfail, Hok.
    destruct err as [err |].
    + exists evs1. split; [exact Ht1 | apply Hfail; discriminate].
    + destruct (run_trace (kubectl m path (deleteArgs r ns)) st1) as [fin [Ht2 _]].
      destruct (run _ st1) as [[err out] st2]. cbn [fst snd] in Ht2 |- *.
      destruct (Hok [EvRun (kubectl m path (deleteArgs r ns)) fin] st2 eq_refl)
        as [evsC [HtC Hrel]].
      eexists. split; [| exact Hrel].
      rewrite HtC, Ht2, Ht1, <- !app_assoc. reflexivity.
  - exists []. split; [now rewrite app_nil_r | reflexivity].
Qed.

Lemma readResource_released (d : ResourceData) (m : config) (selflink : string) (st : St) :
  exists evs,
    trace (snd (readResource d m selflink st)) = trace st ++ evs
    /\ released evs = true.
Proof.
  unfold readResource.
  destruct (resourceFromSelflink selflink) as [[r ns] [|]]; cbn [negb].
  - destruct (kubeconfigPath_released m st) as [evs1 [Ht1 [Hfail Hok]]].
    destruct (kubeconfigPath m st) as [[[path cleanup] err] st1].
    cbn [fst snd] in Ht1, Hfail, Hok.
    destruct err as [err |].
    + exists evs1. split; [exact Ht1 | apply Hfail; discriminate].
    + destruct (run_trace (kubectl m path (getArgs r ns)) st1) as [fin [Ht2 _]].
      destruct (run _ st1) as [[err out] st2]. cbn [fst snd] in Ht2.
      destruct (Hok [EvRun (kubectl m path (getArgs r ns)) fin] st2 eq_refl)
        as [evsC [HtC Hrel]].
      eexists. split; [| exact Hrel].
      destruct err; [| destruct (blank out)]; cbn [snd];
        rewrite HtC, Ht2, Ht1, <- !app_assoc; reflexivity.
  - exists []. split; [now rewrite app_nil_r | reflexivity].
Qed.

Lemma deleteLoop_released (m : config) (resources : list string) (n : nat) :
  forall errs st,
  exists evs,
    trace (snd (deleteLoop m resources n errs st)) = trace st ++ evs
    /\ released evs = true.
Proof.
  induction n as [| i IH]; intros errs st.
  - exists []. split; [now rewrite app_nil_r | reflexivity].
  - cbn [deleteLoop].
    destruct (deleteResource_released m (nth i resources "") st) as [evs1 [Ht1 Hr1]].
    destruct (deleteResource m (nth i resources "") st) as [err st1]. cbn [snd] in Ht1.
    destruct (IH (appendErr errs err) st1) as [evs2 [Ht2 Hr2]].
    exists (evs1 ++ evs2). split; [| now apply released_app].
    rewrite Ht2, Ht1, <- app_assoc. reflexivity.
Qed.

Lemma readLoop_released (m : config) (ls : list string) :
  forall errs d st,
  exists evs,
    trace (snd (readLoop m ls errs d st)) = trace st ++ evs
    /\ released evs = true.
Proof.
  induction ls as [| selflink rest IH]; intros errs d st.
  - exists []. split; [now rewrite app_nil_r | reflexivity].
  - cbn [readLoop].
    destruct (readResource_released d m selflink st) as [evs1 [Ht1 Hr1]].
    destruct (readResource d m selflink st) as [[err d1] st1]. cbn [snd] in Ht1.
    destruct (IH (appendErr errs err) d1 st1) as [evs2 [Ht2 Hr2]].
    exists (evs1 ++ evs2). split; [| now apply released_app].
    rewrite Ht2, Ht1, <- app_assoc. reflexivity.
Qed.

(** X13.  No operation leaves a temporary credentials file behind: in the
    stretch of the log each of Create, Update, Read and Delete adds, every
    file that was written is removed later, whether the operation
    succeeded or failed, and wherever it failed. *)
Theorem temporary_files_released (d : ResourceData) (m : config) (st : St) :
  (exists evs, trace (snd (resourceManifestCreate d m st)) = trace st ++ evs
               /\ released evs = true)
  /\ (exists evs, trace (snd (resourceManifestUpdate d m st)) = trace st ++ evs
                  /\ released evs = true)
  /\ (exists evs, trace (snd (resourceManifestRead d m st)) = trace st ++ evs
                  /\ released evs = true)
  /\ (exists evs, trace (snd (resourceManifestDelete d m st)) = trace st ++ evs
                  /\ released evs = true).
Proof.
  repeat split.
  - unfold resourceManifestCreate.
    destruct (kubeconfigPath_released m st) as [evs1 [Ht1 [Hfail Hok]]].
    destruct (kubeconfigPath m st) as [[[path cleanup] err] st1].
    cbn [fst snd] in Ht1, Hfail, Hok.
    destruct err as [err |].
    { exists evs1. split; [exact Ht1 | apply Hfail; discriminate]. }
    set (apply := withStdin (kubectl m path ["apply"; "-f"; "-"]) (content d)).
    destruct (run_trace apply st1) as [fin1 [Ht2 _]].
    destruct (run apply st1) as [[err1 out1] st2]. cbn [fst snd] in Ht2.
    destruct err1 as [err1 |].
    { destruct (Hok [EvRun apply fin1] st2 eq_refl) as [evsC [HtC Hrel]].
      eexists. split; [| exact Hrel]. cbn [snd].
      rewrite HtC, Ht2, Ht1, <- !app_assoc. reflexivity. }
    set (get := withStdin (kubectl m path ["get"; "-f"; "-"; "-o"; "json"]) (content d)).
    destruct (run_trace get st2) as [fin2 [Ht3 _]].
    destruct (run get st2) as [[err2 out] st3]. cbn [fst snd] in Ht3.
    destruct (Hok [EvRun apply fin1; EvRun get fin2] st3 eq_refl) as [evsC [HtC Hrel]].
    eexists. split; [| exact Hrel].
    assert (Hst : forall r, trace (snd (r : option error * ResourceData, cleanup st3))
                            = trace st ++ evs1 ++ [EvRun apply fin1; EvRun get fin2] ++ evsC).
    { intros r. cbn [snd]. rewrite HtC, Ht3, Ht2, Ht1, <- !app_assoc. reflexivity. }
    destruct err2; [apply Hst |].
    destruct (json_Unmarshal out); [apply Hst |].
    destruct (List.length l =? 0)%nat; [apply Hst |].
    destruct (selflinksLoop out l []); apply Hst.
  - unfold resourceManifestUpdate.
    destruct (kubeconfigPath_released m st) as [evs1 [Ht1 [Hfail Hok]]].
    destruct (kubeconfigPath m st) as [[[path cleanup] err] st1].
    cbn [fst snd] in Ht1, Hfail, Hok.
    destruct err as [err |].
    { exists evs1. split; [exact Ht1 | apply Hfail; discriminate]. }
    set (apply := withStdin (kubectl m path ["apply"; "-f"; "-"]) (content d)).
    destruct (run_trace apply st1) as [fin1 [Ht2 _]].
    destruct (run apply st1) as [[err1 out1] st2]. cbn [fst snd] in Ht2.
    destruct (Hok [EvRun apply fin1] st2 eq_refl) as [evsC [HtC Hrel]].
    eexists. split; [| exact Hrel]. cbn [snd].
    rewrite HtC, Ht2, Ht1, <- !app_assoc. reflexivity.
  - unfold resourceManifestRead.
    destruct (readLoop_released m (strings.Split (Id d) resourceIDSelflinkDelim) [] d st)
      as [evs [Ht Hr]].
    destruct (readLoop m _ [] d st) as [[errs d'] st']. cbn [snd] in *.
    now exists evs.
  - unfold resourceManifestDelete.
    destruct (deleteLoop_released m (strings.Split (Id d) resourceIDSelflinkDelim)
                (List.length (strings.Split (Id d) resourceIDSelflinkDelim)) [] st)
      as [evs [Ht Hr]].
    destruct (deleteLoop m _ _ [] st) as [errs st']. cbn [snd] in *.
    now exists evs.
Qed.



(** X16.  With inline credentials only, when the temporary file is created
    but writing the content to it fails, Create returns the
    writing-kubeconfig error wrapped as a determining-kubeconfig error,
    sets no identity, runs no sub-process, and the file has been removed
    on return. *)
Theorem create_write_failure (d : ResourceData) (m : config) (st : St)
        (name err : string) (w1 w2 : World) :
  kubeconfig m = "" ->
  kubeconfigContent m <> "" ->
  ioutil_TempFile (world st) = (inl name, w1) ->
  io_WriteString name (kubeconfigContent m) w1 = (Some err, w2) ->
  resourceManifestCreate d m st
  = (Some (Errorf ("determining kubeconfig: writing kubeconfig to file: " ++ err)%string),
     d,
     {| world := os_Remove name w2;
        trace := trace st ++ [EvTempFile; EvWriteString name (kubeconfigContent m);
                              EvRemove name] |}).
Proof.
  intros Hp Hc Htmp Hw.
  unfold resourceManifestCreate, kubeconfigPath, TempFile, WriteString, Remove. cbv zeta.
  rewrite Hp, (nonEmpty_true Hc). cbn [nonEmpty String.eqb negb andb].
  rewrite Htmp. cbn [world trace]. rewrite Hw. cbn [world trace Error].
  rewrite <- !app_assoc. reflexivity.
Qed.

End AdapterMore.

(** ** The further properties at work on the small cluster *)

Lemma blank_ascii_space_witness :
  blank (String (ascii_of_nat 10) (String (ascii_of_nat 9) "  ")) = true.
Proof.
  apply (@blank_ascii_space (String (ascii_of_nat 10) (String (ascii_of_nat 9) "  "))).
  reflexivity.
Defined.

Lemma blank_visible_witness :
  blank "  NAME   READY   STATUS  " = false.
Proof.
  apply (@blank_visible "  NAME   READY   STATUS  "). reflexivity.
Defined.


Lemma create_missing_selflink_witness :
  let d := {| content := Demo.twoPods; Id := "" |} in
  fst (resourceManifestCreate (env := clusterNoLink) d Demo.byPath startNoLink)
  = (Some (Errorf ("could not parse self-link from response " ++ Demo.twoPods)%string), d).
Proof.
  cbv zeta.
  erewrite (@create_missing_selflink clusterNoLink
              {| content := Demo.twoPods; Id := "" |} Demo.byPath startNoLink);
    [reflexivity | reflexivity | reflexivity | reflexivity | reflexivity |].
  right. left. reflexivity.
Defined.

Lemma undecodable_identity_witness :
  let d := {| content := Demo.twoPods; Id := "" |} in
  resourceManifestRead (env := Demo.cluster) d Demo.byPath Demo.start
  = (Some (errorList [invalidId ""]), d, Demo.start)
  /\ resourceManifestDelete (env := Demo.cluster) d Demo.byPath Demo.start
     = (Some (errorList [invalidId ""]), d, Demo.start).
Proof.
  cbv zeta.
  apply (@undecodable_identity Demo.cluster
           {| content := Demo.twoPods; Id := "" |} Demo.byPath Demo.start).
  repeat constructor.
Defined.



Lemma create_write_failure_witness :
  let d := {| content := Demo.twoPods; Id := "" |} in
  resourceManifestCreate (env := clusterDiskFull) d demoInline startDiskFull
  = (Some (Errorf ("determining kubeconfig: writing kubeconfig to file: "
                   ++ "no space left on device")%string),
     d,
     @Build_St clusterDiskFull
       (os_Remove (Env := clusterDiskFull) "/tmp/kubeconfig_1" 0)
       (trace startDiskFull
          ++ [EvTempFile; EvWriteString "/tmp/kubeconfig_1" (kubeconfigContent demoInline);
              EvRemove "/tmp/kubeconfig_1"])).
Proof.
  cbv zeta.
  apply (@create_write_failure clusterDiskFull
           {| content := Demo.twoPods; Id := "" |} demoInline startDiskFull
           "/tmp/kubeconfig_1" "no space left on device" 0 0).
  - reflexivity.
  - discriminate.
  - reflexivity.
  - reflexivity.
Defined.

(** * The adapter against the words of the specification *)

Section AdapterInWords.

Context {env : Env}.

(** ** The adapter's commands and errors are those of section 4.1 and 6 *)

Lemma kubectl_cliCommand (m : config) (path : string) (args : list string) :
  kubectl m path args = cliCommand m path args None.
Proof.
  unfold kubectl, cliCommand, exec_Command, nonEmpty.
  destruct (path =? ""), (kubeconfigContext m =? ""); reflexivity.
Qed.

Lemma kubectl_withStdin (m : config) (path input : string) (args : list string) :
  withStdin (kubectl m path args) input = cliCommand m path args (Some input).
Proof. rewrite kubectl_cliCommand. reflexivity. Qed.

Lemma deleteArgs_namespaceFlag (resource namespace : string) :
  deleteArgs resource namespace = ["delete"; resource] ++ namespaceFlag namespace.
Proof.
  unfold deleteArgs, namespaceFlag, nonEmpty. destruct (namespace =? ""); reflexivity.
Qed.

Lemma getArgs_namespaceFlag (resource namespace : string) :
  getArgs resource namespace
  = ["get"; "--ignore-not-found"; resource] ++ namespaceFlag namespace.
Proof.
  unfold getArgs, namespaceFlag, nonEmpty. destruct (namespace =? ""); reflexivity.
Qed.

Lemma run_afterRun (cmd : Cmd) (st : St) :
  run cmd st
  = let '(fin, w) := cmd_Run cmd (world st) in
    ((match runErr fin with
      | None => None
      | Some cause => Some (processError cmd cause (Stderr fin))
      end, Stdout fin),
     afterRun st cmd fin w).
Proof.
  unfold run, afterRun, processError.
  destruct (cmd_Run cmd (world st)) as [fin w].
  destruct (runErr fin) as [cause |]; [| reflexivity].
  destruct (Stderr fin); reflexivity.
Qed.

Lemma kubeconfigPath_no_inline (m : config) (st : St) :
  kubeconfigContent m = "" ->
  kubeconfigPath m st = ((kubeconfig m, fun st' => st', None), st).
Proof.
  intros Hc. unfold kubeconfigPath. rewrite Hc. cbn [nonEmpty String.eqb negb andb].
  rewrite andb_false_r. unfold nonEmpty.
  destruct (String.eqb_spec (kubeconfig m) "") as [-> | _]; reflexivity.
Qed.

Lemma errsResult_aggregate (results : list (option error)) :
  errsResult (failures results) = aggregate results.
Proof. unfold aggregate. destruct (failures results); reflexivity. Qed.

Lemma withIdentity_same (d : ResourceData) : withIdentity d (Id d) = d.
Proof. destruct d; reflexivity. Qed.

(** ** One locator *)

Lemma deleteResource_inWords (m : config) (selflink : string) (st : St) :
  deleteResource m selflink st = deleteInWords m selflink st.
Proof.
  unfold deleteResource, deleteInWords, deleteCommand.
  destruct (resourceFromSelflink selflink) as [[r ns] [|]]; cbn [negb]; [| reflexivity].
  destruct (kubeconfigPath m st) as [[[path release] [e |]] st1]; [reflexivity |].
  rewrite run_afterRun, deleteArgs_namespaceFlag, kubectl_cliCommand.
  destruct (cmd_Run _ (world st1)) as [fin w]. reflexivity.
Qed.

Lemma readResource_inWords (d : ResourceData) (m : config) (selflink : string) (st : St) :
  readResource d m selflink st
  = let '((err, gone), st1) := queryInWords m selflink st in
    (err, if gone then withIdentity d "" else d, st1).
Proof.
  unfold readResource, queryInWords, getCommand, blank.
  destruct (resourceFromSelflink selflink) as [[r ns] [|]]; cbn [negb]; [| reflexivity].
  destruct (kubeconfigPath m st) as [[[path release] [e |]] st1]; [reflexivity |].
  rewrite run_afterRun, getArgs_namespaceFlag, kubectl_cliCommand.
  destruct (cmd_Run _ (world st1)) as [fin w].
  destruct (runErr fin) as [cause |]; [reflexivity |].
  destruct (strings.TrimSpace (Stdout fin) =? ""); reflexivity.
Qed.

(** ** All locators *)

Lemma attemptAll_inWords (m : config) (ls : list string) (st : St) :
  attemptAll (deleteResource m) ls st = eachInOrder (deleteInWords m) ls st.
Proof.
  revert st. induction ls as [| selflink rest IH]; intros st; [reflexivity |].
  cbn [attemptAll eachInOrder]. rewrite deleteResource_inWords.
  destruct (deleteInWords m selflink st) as [r st1]. now rewrite IH.
Qed.

Lemma resourceManifestDelete_inWords (d : ResourceData) (m : config) (st : St) :
  resourceManifestDelete d m st
  = let '(results, st') :=
      eachInOrder (deleteInWords m)
                  (rev (strings.Split (Id d) resourceIDSelflinkDelim)) st in
    (aggregate results, d, st').
Proof.
  unfold resourceManifestDelete.
  rewrite deleteLoop_attemptAll by lia. rewrite firstn_all, attemptAll_inWords.
  destruct (eachInOrder _ _ st) as [results st']. cbn [app].
  now rewrite errsResult_aggregate.
Qed.

Lemma readLoop_inWords (m : config) (ls : list string) :
  forall errs d st,
    readLoop m ls errs d st
    = let '(results, st') := eachInOrder (queryInWords m) ls st in
      (errs ++ failures (map fst results),
       if existsb snd results then withIdentity d "" else d,
       st').
Proof.
  induction ls as [| selflink rest IH]; intros errs d st.
  - cbn. now rewrite app_nil_r.
  - cbn [readLoop eachInOrder]. rewrite readResource_inWords.
    destruct (queryInWords m selflink st) as [[err gone] st1].
    rewrite IH. destruct (eachInOrder (queryInWords m) rest st1) as [results st2].
    cbn [map fst snd existsb]. rewrite failures_app_one.
    destruct gone, (existsb snd results); reflexivity.
Qed.

Lemma resourceManifestRead_inWords (d : ResourceData) (m : config) (st : St) :
  resourceManifestRead d m st
  = let '(results, st') :=
      eachInOrder (queryInWords m) (strings.Split (Id d) resourceIDSelflinkDelim) st in
    (aggregate (map fst results),
     withIdentity d (if existsb snd results then "" else Id d),
     st').
Proof.
  unfold resourceManifestRead. rewrite readLoop_inWords.
  destruct (eachInOrder _ _ st) as [results st']. cbn [app].
  rewrite errsResult_aggregate.
  destruct (existsb snd results); [reflexivity | now rewrite withIdentity_same].
Qed.

Lemma split_two (a b : string) :
  containsByte " " a = false ->
  containsByte " " b = false ->
  strings.Split (a ++ " " ++ b) resourceIDSelflinkDelim = [a; b].
Proof.
  intros Ha Hb.
  change (a ++ " " ++ b)%string with (strings.Join [a; b] resourceIDSelflinkDelim).
  apply split_join_delim. repeat constructor; assumption.
Qed.

(** ** Delete, Read and Create *)

(** C3.  Delete equals the specification's Delete: it splits the stored
    identity on the delimiter and handles every locator, the last one
    first, each in the state the one before it left whether that one
    failed or not; for a locator that decodes and whose credentials
    resolve it runs the delete command; it returns no error when nothing
    failed and otherwise the list of exactly the failures, in the order of
    the attempts; the resource data are untouched.  In particular, for the
    identity [a b] of two locators that decode, with no inline credentials,
    when the deletion of [b] fails and that of [a] succeeds: the delete of
    [b] is run first, the delete of [a] is still run, in the world the
    first left, and the error is the list holding the failure of [b] alone. *)
Theorem delete_attempts_all_in_reverse (d : ResourceData) (m : config) (st : St) :
  resourceManifestDelete d m st
  = (let '(results, st') :=
       eachInOrder (deleteInWords m)
                   (rev (strings.Split (Id d) resourceIDSelflinkDelim)) st in
     (aggregate results, d, st'))
  /\ forall a b ra nsa rb nsb finA finB wA wB cause,
      kubeconfigContent m = "" ->
      Id d = (a ++ " " ++ b)%string ->
      containsByte " " a = false ->
      containsByte " " b = false ->
      resourceFromSelflink a = (ra, nsa, true) ->
      resourceFromSelflink b = (rb, nsb, true) ->
      cmd_Run (deleteCommand m (kubeconfig m) rb nsb) (world st) = (finB, wB) ->
      runErr finB = Some cause ->
      cmd_Run (deleteCommand m (kubeconfig m) ra nsa) wB = (finA, wA) ->
      runErr finA = None ->
      resourceManifestDelete d m st
      = (Some (errorList
                 [processError (deleteCommand m (kubeconfig m) rb nsb) cause (Stderr finB)]),
         d,
         {| world := wA;
            trace := trace st
                     ++ [EvRun (deleteCommand m (kubeconfig m) rb nsb) finB;
                         EvRun (deleteCommand m (kubeconfig m) ra nsa) finA] |}).
Proof.
  split; [apply resourceManifestDelete_inWords |].
  intros a b ra nsa rb nsb finA finB wA wB cause Hc Hid Ha Hb Hda Hdb HrB HeB HrA HeA.
  rewrite resourceManifestDelete_inWords, Hid, split_two by assumption.
  cbn [rev app eachInOrder]. unfold deleteInWords.
  rewrite Hdb, kubeconfigPath_no_inline by exact Hc. rewrite HrB, HeB.
  rewrite Hda, kubeconfigPath_no_inline by exact Hc.
  cbn [afterRun world]. rewrite HrA, HeA.
  unfold aggregate, afterRun. cbn [failures trace world].
  now rewrite <- app_assoc.
Qed.

(** C2.  Read equals the specification's Read: it splits the stored
    identity once and handles every locator in order, each in the state the
    one before it left; for a locator that decodes and whose credentials
    resolve it runs the get query; the per-locator errors (invalid id,
    credentials, execution failure) are returned together after the last
    locator, as the list of exactly these errors, or no error when there
    is none; and the identity ends up empty when at least one query
    succeeded with an output that is empty or white space, whatever the
    other locators gave, and is unchanged otherwise, the content field
    being kept in both cases.  In particular, for the identity [a b] of
    two locators that decode, with no inline credentials, when both
    queries succeed and the output of either is empty or white space, both
    queries are run, no error is returned and the identity is empty. *)
Theorem read_clears_identity_on_blank_output (d : ResourceData) (m : config) (st : St) :
  resourceManifestRead d m st
  = (let '(results, st') :=
       eachInOrder (queryInWords m) (strings.Split (Id d) resourceIDSelflinkDelim) st in
     (aggregate (map fst results),
      {| content := content d; Id := if existsb snd results then "" else Id d |},
      st'))
  /\ forall a b ra nsa rb nsb finA finB wA wB,
      kubeconfigContent m = "" ->
      Id d = (a ++ " " ++ b)%string ->
      containsByte " " a = false ->
      containsByte " " b = false ->
      resourceFromSelflink a = (ra, nsa, true) ->
      resourceFromSelflink b = (rb, nsb, true) ->
      cmd_Run (getCommand m (kubeconfig m) ra nsa) (world st) = (finA, wA) ->
      runErr finA = None ->
      cmd_Run (getCommand m (kubeconfig m) rb nsb) wA = (finB, wB) ->
      runErr finB = None ->
      strings.TrimSpace (Stdout finA) = "" \/ strings.TrimSpace (Stdout finB) = "" ->
      resourceManifestRead d m st
      = (None,
         {| content := content d; Id := "" |},
         {| world := wB;
            trace := trace st
                     ++ [EvRun (getCommand m (kubeconfig m) ra nsa) finA;
                         EvRun (getCommand m (kubeconfig m) rb nsb) finB] |}).
Proof.
  split; [apply resourceManifestRead_inWords |].
  intros a b ra nsa rb nsb finA finB wA wB Hc Hid Ha Hb Hda Hdb HrA HeA HrB HeB Hblank.
  rewrite resourceManifestRead_inWords, Hid, split_two by assumption.
  cbn [eachInOrder]. unfold queryInWords.
  rewrite Hda, kubeconfigPath_no_inline by exact Hc. rewrite HrA, HeA.
  rewrite Hdb, kubeconfigPath_no_inline by exact Hc.
  cbn [afterRun world]. rewrite HrB, HeB.
  unfold aggregate, afterRun, withIdentity. cbn [map fst snd failures existsb trace world].
  rewrite <- app_assoc.
  destruct Hblank as [H | H]; rewrite H; cbn [String.eqb orb];
    rewrite ?orb_true_r; reflexivity.
Qed.

(** C7.  Every failure of Create before its last step leaves the identity
    unset and is returned: when the credentials do not resolve; when the
    apply process fails (the structured get is then not run); when the
    structured get fails; when its output does not decode; when the
    decoded items list is empty, the error then being
    [no resources created]; and when an item has an empty self-link.  In
    each case the resource data are exactly as before, and so they are
    whenever Create returns an error. *)
Theorem create_failure_sets_no_identity (d : ResourceData) (m : config) (st : St) :
  (forall err,
      fst (fst (resourceManifestCreate d m st)) = Some err ->
      snd (fst (resourceManifestCreate d m st)) = d)
  /\ (forall path release e st1,
         kubeconfigPath m st = ((path, release, Some e), st1) ->
         resourceManifestCreate d m st
         = (Some (Errorf ("determining kubeconfig: " ++ Error e)%string), d, st1))
  /\ (forall path release st1 fin1 w1,
         kubeconfigPath m st = ((path, release, None), st1) ->
         cmd_Run (applyCommand m path d) (world st1) = (fin1, w1) ->
         (forall cause,
             runErr fin1 = Some cause ->
             resourceManifestCreate d m st
             = (Some (processError (applyCommand m path d) cause (Stderr fin1)), d,
                release (afterRun st1 (applyCommand m path d) fin1 w1)))
         /\ (runErr fin1 = None ->
             forall fin2 w2,
               cmd_Run (getJSONCommand m path d) w1 = (fin2, w2) ->
               let st3 := release (afterRun (afterRun st1 (applyCommand m path d) fin1 w1)
                                            (getJSONCommand m path d) fin2 w2) in
               (forall cause,
                        runErr fin2 = Some cause ->
                        resourceManifestCreate d m st
                        = (Some (processError (getJSONCommand m path d) cause
                                              (Stderr fin2)), d, st3))
                 /\ (runErr fin2 = None ->
                     (forall e,
                         json_Unmarshal (Stdout fin2) = inl e ->
                         resourceManifestCreate d m st
                         = (Some (Errorf ("decoding response: " ++ e)%string), d, st3))
                     /\ (json_Unmarshal (Stdout fin2) = inr [] ->
                         resourceManifestCreate d m st
                         = (Some (Errorf "no resources created"), d, st3))
                     /\ (forall items,
                            json_Unmarshal (Stdout fin2) = inr items ->
                            Exists (fun item => selflinkOf item = "") items ->
                            resourceManifestCreate d m st
                            = (Some (Errorf ("could not parse self-link from response "
                                             ++ Stdout fin2)%string), d, st3))))).
Proof.
  split; [| split].
  - unfold resourceManifestCreate.
    destruct (kubeconfigPath m st) as [[[path cleanup] [err |]] st1];
      [intros; reflexivity |].
    destruct (run _ st1) as [[[err |] out1] st2]; [intros; reflexivity |].
    destruct (run _ st2) as [[[err |] out] st3]; [intros; reflexivity |].
    destruct (json_Unmarshal out) as [err | items]; [intros; reflexivity |].
    destruct (List.length items =? 0)%nat; [intros; reflexivity |].
    destruct (selflinksLoop out items []) as [err | selflinks];
      [intros; reflexivity |].
    cbn [fst snd]. discriminate.
  - intros path release e st1 Hk. unfold resourceManifestCreate. now rewrite Hk.
  - intros path release st1 fin1 w1 Hk Hr1.
    unfold resourceManifestCreate. rewrite Hk.
    rewrite !kubectl_withStdin. fold (applyCommand m path d) (getJSONCommand m path d).
    rewrite run_afterRun, Hr1. split.
    + intros cause He1. now rewrite He1.
    + intros He1 fin2 w2 Hr2. rewrite He1.
      rewrite run_afterRun. cbn [afterRun world]. rewrite Hr2.
      cbv zeta. split.
      * intros cause He2. now rewrite He2.
      * intros He2. rewrite He2. repeat split.
        -- intros e Hj. now rewrite Hj.
        -- intros Hj. now rewrite Hj.
        -- intros items Hj Hex. rewrite Hj.
           destruct items as [| item rest]; [inversion Hex |].
           cbn [List.length Nat.eqb].
           now rewrite selflinksLoop_missing by exact Hex.
Qed.

(** ** After Create; the sub-processes of Delete *)

Lemma create_success_trace (d d' : ResourceData) (m : config) (st st' : St) :
  resourceManifestCreate d m st = (None, d', st') ->
  exists path fin1 fin2 evsA evsB items,
    trace st'
    = trace st ++ evsA
      ++ [EvRun (applyCommand m path d) fin1; EvRun (getJSONCommand m path d) fin2]
      ++ evsB
    /\ noRuns evsA /\ noRuns evsB
    /\ json_Unmarshal (Stdout fin2) = inr items
    /\ items <> []
    /\ d' = withIdentity d (strings.Join (map selflinkOf items) resourceIDSelflinkDelim).
Proof.
  unfold resourceManifestCreate.
  destruct (kubeconfigPath_trace m st) as [[evsA [HtA HnA]] Hq].
  destruct (kubeconfigPath m st) as [[[path release] [err |]] st1]; [discriminate |].
  cbn [fst snd] in HtA, Hq.
  rewrite !kubectl_withStdin. fold (applyCommand m path d) (getJSONCommand m path d).
  rewrite run_afterRun.
  destruct (cmd_Run (applyCommand m path d) (world st1)) as [fin1 w1].
  destruct (runErr fin1); [discriminate |].
  rewrite run_afterRun. cbn [afterRun world].
  destruct (cmd_Run (getJSONCommand m path d) w1) as [fin2 w2].
  destruct (runErr fin2); [discriminate |].
  destruct (json_Unmarshal (Stdout fin2)) as [err | items] eqn:Hjson; [discriminate |].
  destruct items as [| item rest]; [discriminate |].
  cbn [List.length Nat.eqb].
  destruct (selflinksLoop (Stdout fin2) (item :: rest) []) as [err | selflinks] eqn:Hloop;
    [discriminate |].
  intros H. inversion H; subst. clear H.
  destruct (selflinksLoop_ok _ _ _ Hloop) as [Hs _]. cbn [app] in Hs.
  match goal with |- context [trace (release ?s)] => destruct (Hq s) as [evsB [HtB HnB]] end.
  exists path, fin1, fin2, evsA, evsB, (item :: rest).
  repeat split; try assumption; try discriminate.
  - rewrite HtB. unfold afterRun. cbn [trace]. rewrite HtA, <- !app_assoc. reflexivity.
  - now rewrite Hs.
Qed.

(** X10.  After a successful Create whose items (the ones decoded from the
    output of its second sub-process, the structured get) have self-links
    without a space, the stored identity splits back into exactly these
    self-links, so that Read handles exactly the created items in creation
    order and Delete exactly the created items in the reverse order, in
    whatever state they are started. *)
Theorem read_delete_after_create (d d' : ResourceData) (m : config) (st st' : St)
        (evs : list Event) (cmd : Cmd) (fin : Finished) (items : list Item) :
  resourceManifestCreate d m st = (None, d', st') ->
  trace st' = trace st ++ evs ->
  nth_error (runsOf evs) 1 = Some (EvRun cmd fin) ->
  json_Unmarshal (Stdout fin) = inr items ->
  Forall (fun item => containsByte " " (selflinkOf item) = false) items ->
  (exists path, cmd = getJSONCommand m path d)
  /\ strings.Split (Id d') resourceIDSelflinkDelim = map selflinkOf items
  /\ forall st2,
      resourceManifestRead d' m st2
      = (let '(results, st3) :=
           eachInOrder (queryInWords m) (map selflinkOf items) st2 in
         (aggregate (map fst results),
          {| content := content d'; Id := if existsb snd results then "" else Id d' |},
          st3))
      /\ resourceManifestDelete d' m st2
         = (let '(results, st3) :=
              eachInOrder (deleteInWords m) (rev (map selflinkOf items)) st2 in
            (aggregate results, d', st3)).
Proof.
  intros Hc Ht Hnth Hjson Hsp.
  destruct (create_success_trace _ _ _ Hc)
    as [path [fin1 [fin2 [evsA [evsB [items' [Ht' [HnA [HnB [Hjson' [Hne Hd]]]]]]]]]]].
  rewrite Ht in Ht'. apply app_inv_head in Ht'. subst evs.
  rewrite !runsOf_app, (noRuns_runsOf HnA), (noRuns_runsOf HnB) in Hnth.
  cbn in Hnth. inversion Hnth; subst cmd fin. clear Hnth.
  rewrite Hjson in Hjson'. inversion Hjson'; subst items'. clear Hjson'.
  assert (Hsplit : strings.Split (Id d') resourceIDSelflinkDelim = map selflinkOf items).
  { subst d'. cbn [Id withIdentity]. destruct items as [| item rest]; [now elim Hne |].
    cbn [map]. apply split_join_delim.
    change (selflinkOf item :: map selflinkOf rest) with (map selflinkOf (item :: rest)).
    apply Forall_map. exact Hsp. }
  split; [now exists path |]. split; [exact Hsplit |].
  intros st2. split.
  - rewrite resourceManifestRead_inWords, Hsplit. reflexivity.
  - rewrite resourceManifestDelete_inWords, Hsplit. reflexivity.
Qed.

Lemma deleteInWords_runs (m : config) (selflink : string) (st : St) :
  exists evs,
    trace (snd (deleteInWords m selflink st)) = trace st ++ evs
    /\ (runsOf evs = []
        \/ exists r ns path fin,
            resourceFromSelflink selflink = (r, ns, true)
            /\ runsOf evs = [EvRun (deleteCommand m path r ns) fin]).
Proof.
  unfold deleteInWords.
  destruct (resourceFromSelflink selflink) as [[r ns] [|]].
  - destruct (kubeconfigPath_trace m st) as [[evs1 [Ht1 Hn1]] Hq].
    destruct (kubeconfigPath m st) as [[[path release] [e |]] st1];
      cbn [fst snd] in Ht1, Hq.
    + exists evs1. cbn [snd]. split; [exact Ht1 | left; now apply noRuns_runsOf].
    + destruct (cmd_Run (deleteCommand m path r ns) (world st1)) as [fin w].
      cbn [snd].
      destruct (Hq (afterRun st1 (deleteCommand m path r ns) fin w)) as [evs3 [Ht3 Hn3]].
      exists (evs1 ++ [EvRun (deleteCommand m path r ns) fin] ++ evs3). split.
      * rewrite Ht3. cbn [afterRun trace]. rewrite Ht1, <- !app_assoc. reflexivity.
      * right. exists r, ns, path, fin. split; [reflexivity |].
        rewrite !runsOf_app, (noRuns_runsOf Hn1), (noRuns_runsOf Hn3). reflexivity.
  - exists []. cbn [snd]. split; [now rewrite app_nil_r | now left].
Qed.

Lemma eachInOrder_delete_runs (m : config) (ls : list string) :
  forall st,
  exists evs,
    trace (snd (eachInOrder (deleteInWords m) ls st)) = trace st ++ evs
    /\ oneDeleteEach m ls (runsOf evs).
Proof.
  induction ls as [| selflink rest IH]; intros st.
  - exists []. cbn. split; [now rewrite app_nil_r | constructor].
  - cbn [eachInOrder].
    destruct (deleteInWords_runs m selflink st) as [evs1 [Ht1 Hr1]].
    destruct (deleteInWords m selflink st) as [r1 st1]. cbn [snd] in Ht1.
    destruct (IH st1) as [evs2 [Ht2 Hr2]].
    destruct (eachInOrder (deleteInWords m) rest st1) as [rs st2]. cbn [snd] in Ht2 |- *.
    exists (evs1 ++ evs2). split.
    + rewrite Ht2, Ht1, <- app_assoc. reflexivity.
    + rewrite runsOf_app.
      destruct Hr1 as [-> | [r [ns [path [fin [Hd ->]]]]]]; cbn [app].
      * now constructor.
      * econstructor; eassumption.
Qed.

Lemma oneDeleteEach_length (m : config) (ls : list string) (runs : list Event) :
  oneDeleteEach m ls runs -> List.length runs <= List.length ls.
Proof. induction 1; cbn [List.length]; lia. Qed.

Lemma oneDeleteEach_In (m : config) (ls : list string) (runs : list Event) :
  oneDeleteEach m ls runs ->
  forall e, In e runs ->
            exists selflink r ns path fin,
              In selflink ls
              /\ resourceFromSelflink selflink = (r, ns, true)
              /\ e = EvRun (deleteCommand m path r ns) fin.
Proof.
  induction 1 as [| sl rest runs _ IH | sl rest runs r ns path fin Hd _ IH]; intros e Hin.
  - destruct Hin.
  - destruct (IH e Hin) as [sl' [r [ns [path [fin [Hsl H]]]]]].
    exists sl', r, ns, path, fin. split; [now right | exact H].
  - destruct Hin as [<- | Hin].
    + exists sl, r, ns, path, fin. repeat split; [now left | exact Hd].
    + destruct (IH e Hin) as [sl' [r' [ns' [path' [fin' [Hsl H]]]]]].
      exists sl', r', ns', path', fin'. split; [now right | exact H].
Qed.

(** X11.  The sub-processes Delete runs match the locators of the stored
    identity, taken last first, one by one: a locator gets no sub-process
    or exactly one, which is then its own delete command (with [-n] and the
    namespace when it has one), and a locator that does not decode gets
    none.  So there are at most as many sub-processes as locators and each
    is the delete command of a locator that decodes. *)
Theorem delete_runs_only_deletes (d : ResourceData) (m : config) (st : St) :
  exists evs,
    trace (snd (resourceManifestDelete d m st)) = trace st ++ evs
    /\ oneDeleteEach m (rev (strings.Split (Id d) resourceIDSelflinkDelim)) (runsOf evs)
    /\ List.length (runsOf evs)
       <= List.length (strings.Split (Id d) resourceIDSelflinkDelim)
    /\ forall cmd fin,
        In (EvRun cmd fin) evs ->
        exists selflink r ns path,
          In selflink (strings.Split (Id d) resourceIDSelflinkDelim)
          /\ resourceFromSelflink selflink = (r, ns, true)
          /\ cmd = deleteCommand m path r ns.
Proof.
  rewrite resourceManifestDelete_inWords.
  destruct (eachInOrder_delete_runs m
              (rev (strings.Split (Id d) resourceIDSelflinkDelim)) st) as [evs [Ht Hone]].
  destruct (eachInOrder _ _ st) as [results st']. cbn [snd] in *.
  exists evs. split; [exact Ht |]. split; [exact Hone |]. split.
  - rewrite <- (length_rev (strings.Split (Id d) resourceIDSelflinkDelim)).
    now apply oneDeleteEach_length with (m := m).
  - intros cmd fin Hin.
    assert (Hrun : In (EvRun cmd fin) (runsOf evs))
      by (apply filter_In; split; [exact Hin | reflexivity]).
    destruct (oneDeleteEach_In Hone _ Hrun) as [sl [r [ns [path [fin' [Hsl [Hd He]]]]]]].
    inversion He; subst. exists sl, r, ns, path.
    repeat split; [now apply in_rev | exact Hd].
Qed.

End AdapterInWords.

(** ** Delete, Read and Create at work on the small clusters *)

Lemma delete_attempts_all_in_reverse_witness :
  let d := {| content := Demo.twoPods; Id := Demo.twoPodsId |} in
  let res := resourceManifestDelete (env := Demo.cluster) d Demo.byPath Demo.start in
  fst res
  = (Some (errorList
             [Errorf ("/usr/local/bin/kubectl kubectl --kubeconfig /home/op/.kube/config"
                      ++ " delete pods/b -n default exit status 1:"
                      ++ " Error from server (Forbidden)")%string]), d)
  /\ Demo.commands (snd res)
     = [ ["kubectl"; "--kubeconfig"; "/home/op/.kube/config";
          "delete"; "pods/b"; "-n"; "default"];
         ["kubectl"; "--kubeconfig"; "/home/op/.kube/config";
          "delete"; "pods/a"; "-n"; "default"] ].
Proof.
  cbv zeta.
  erewrite (proj2 (@delete_attempts_all_in_reverse Demo.cluster
                     {| content := Demo.twoPods; Id := Demo.twoPodsId |}
                     Demo.byPath Demo.start) Demo.podA Demo.podB);
    [ | reflexivity | reflexivity | reflexivity | reflexivity
      | reflexivity | reflexivity | reflexivity | reflexivity | reflexivity | reflexivity].
  split; reflexivity.
Defined.

Lemma read_clears_identity_on_blank_output_witness :
  let d := {| content := Demo.twoPods; Id := Demo.twoPodsId |} in
  let res := resourceManifestRead (env := Demo.cluster) d Demo.byPath Demo.start in
  fst res = (None, {| content := Demo.twoPods; Id := "" |})
  /\ Demo.commands (snd res)
     = [ ["kubectl"; "--kubeconfig"; "/home/op/.kube/config";
          "get"; "--ignore-not-found"; "pods/a"; "-n"; "default"];
         ["kubectl"; "--kubeconfig"; "/home/op/.kube/config";
          "get"; "--ignore-not-found"; "pods/b"; "-n"; "default"] ].
Proof.
  cbv zeta.
  erewrite (proj2 (@read_clears_identity_on_blank_output Demo.cluster
                     {| content := Demo.twoPods; Id := Demo.twoPodsId |}
                     Demo.byPath Demo.start) Demo.podA Demo.podB);
    [ | reflexivity | reflexivity | reflexivity | reflexivity
      | reflexivity | reflexivity | reflexivity | reflexivity | reflexivity
      | reflexivity | right; reflexivity].
  split; reflexivity.
Defined.

Lemma create_failure_sets_no_identity_witness :
  let d := {| content := Demo.twoPods; Id := "" |} in
  let empty := {| content := "{}"; Id := "" |} in
  let garbled := {| content := "not a manifest"; Id := "" |} in
  fst (resourceManifestCreate (env := Demo.cluster) d Demo.both Demo.start)
  = (Some conflictError, d)
  /\ fst (resourceManifestCreate (env := clusterFailing "apply") d Demo.byPath
                                 (startFailing "apply"))
     = (Some (processError
                (applyCommand (env := clusterFailing "apply") Demo.byPath
                              "/home/op/.kube/config" d)
                "exit status 1" "Unable to connect to the server"), d)
  /\ map (fun e => match e with EvRun cmd _ => Args cmd | _ => [] end)
         (trace (snd (resourceManifestCreate (env := clusterFailing "apply") d Demo.byPath
                                             (startFailing "apply"))))
     = [ ["kubectl"; "--kubeconfig"; "/home/op/.kube/config"; "apply"; "-f"; "-"] ]
  /\ fst (resourceManifestCreate (env := clusterFailing "get") d Demo.byPath
                                 (startFailing "get"))
     = (Some (processError
                (getJSONCommand (env := clusterFailing "get") Demo.byPath
                                "/home/op/.kube/config" d)
                "exit status 1" "Unable to connect to the server"), d)
  /\ fst (resourceManifestCreate (env := Demo.cluster) garbled Demo.byPath Demo.start)
     = (Some (Errorf "decoding response: invalid character"), garbled)
  /\ fst (resourceManifestCreate (env := Demo.cluster) empty Demo.byPath Demo.start)
     = (Some (Errorf "no resources created"), empty)
  /\ fst (resourceManifestCreate (env := clusterNoLink) d Demo.byPath startNoLink)
     = (Some (Errorf ("could not parse self-link from response " ++ Demo.twoPods)%string),
        d).
Proof.
  cbv zeta.
  apply conj; [| apply conj; [| apply conj; [| apply conj; [| apply conj;
    [| apply conj]]]]].
  - erewrite (proj1 (proj2 (@create_failure_sets_no_identity Demo.cluster
                              {| content := Demo.twoPods; Id := "" |}
                              Demo.both Demo.start))); reflexivity.
  - edestruct (proj2 (proj2 (@create_failure_sets_no_identity (clusterFailing "apply")
                               {| content := Demo.twoPods; Id := "" |}
                               Demo.byPath (startFailing "apply")))) as [H _];
      [reflexivity | reflexivity |].
    erewrite H; reflexivity.
  - edestruct (proj2 (proj2 (@create_failure_sets_no_identity (clusterFailing "apply")
                               {| content := Demo.twoPods; Id := "" |}
                               Demo.byPath (startFailing "apply")))) as [H _];
      [reflexivity | reflexivity |].
    erewrite H; reflexivity.
  - edestruct (proj2 (proj2 (@create_failure_sets_no_identity (clusterFailing "get")
                               {| content := Demo.twoPods; Id := "" |}
                               Demo.byPath (startFailing "get")))) as [_ H];
      [reflexivity | reflexivity |].
    edestruct (H eq_refl) as [H2 _]; [reflexivity |].
    erewrite H2; reflexivity.
  - edestruct (proj2 (proj2 (@create_failure_sets_no_identity Demo.cluster
                               {| content := "not a manifest"; Id := "" |}
                               Demo.byPath Demo.start))) as [_ H];
      [reflexivity | reflexivity |].
    edestruct (H eq_refl) as [_ H2]; [reflexivity |].
    destruct (H2 eq_refl) as [H3 _].
    erewrite H3; reflexivity.
  - edestruct (proj2 (proj2 (@create_failure_sets_no_identity Demo.cluster
                               {| content := "{}"; Id := "" |}
                               Demo.byPath Demo.start))) as [_ H];
      [reflexivity | reflexivity |].
    edestruct (H eq_refl) as [_ H2]; [reflexivity |].
    destruct (H2 eq_refl) as [_ [H3 _]].
    rewrite H3; reflexivity.
  - edestruct (proj2 (proj2 (@create_failure_sets_no_identity clusterNoLink
                               {| content := Demo.twoPods; Id := "" |}
                               Demo.byPath startNoLink))) as [_ H];
      [reflexivity | reflexivity |].
    edestruct (H eq_refl) as [_ H2]; [reflexivity |].
    destruct (H2 eq_refl) as [_ [_ H3]].
    erewrite H3; [reflexivity | reflexivity |].
    right. left. reflexivity.
Defined.

Lemma read_delete_after_create_witness :
  let d := {| content := Demo.twoPods; Id := "" |} in
  let d' := {| content := Demo.twoPods; Id := Demo.twoPodsId |} in
  strings.Split (Id d') resourceIDSelflinkDelim = [Demo.podA; Demo.podB]
  /\ forall st2,
      resourceManifestRead (env := Demo.cluster) d' Demo.byPath st2
      = (let '(results, st3) :=
           eachInOrder (queryInWords (env := Demo.cluster) Demo.byPath)
                       [Demo.podA; Demo.podB] st2 in
         (aggregate (map fst results),
          {| content := content d'; Id := if existsb snd results then "" else Id d' |},
          st3))
      /\ resourceManifestDelete (env := Demo.cluster) d' Demo.byPath st2
         = (let '(results, st3) :=
              eachInOrder (deleteInWords (env := Demo.cluster) Demo.byPath)
                          [Demo.podB; Demo.podA] st2 in
            (aggregate results, d', st3)).
Proof.
  cbv zeta.
  refine (proj2 (@read_delete_after_create Demo.cluster
                   {| content := Demo.twoPods; Id := "" |}
                   {| content := Demo.twoPods; Id := Demo.twoPodsId |}
                   Demo.byPath Demo.start
                   (snd (resourceManifestCreate (env := Demo.cluster)
                           {| content := Demo.twoPods; Id := "" |} Demo.byPath Demo.start))
                   (trace (snd (resourceManifestCreate (env := Demo.cluster)
                                  {| content := Demo.twoPods; Id := "" |}
                                  Demo.byPath Demo.start)))
                   (getJSONCommand (env := Demo.cluster) Demo.byPath "/home/op/.kube/config"
                                   {| content := Demo.twoPods; Id := "" |})
                   {| runErr := None; Stdout := Demo.twoPods; Stderr := "" |}
                   [ {| metadata := {| Selflink := Demo.podA |} |};
                     {| metadata := {| Selflink := Demo.podB |} |} ]
                   _ _ _ _ _)).
  - reflexivity.
  - reflexivity.
  - reflexivity.
  - reflexivity.
  - repeat constructor.
Defined.
